(** * combobox-view: the combobox input state machine

    A shallow embedding of
    [src/components/shared-components/WholeInputField/ComboboxInput.vue],
    of [combobox.utils.js] (the second document of the same file) and of
    [src/utils/event.utils.js], with the properties their specification
    states about them.

    Conventions.
    - A JavaScript value is a [JsVal]; an object is the list of its own
      properties in insertion order.
    - A string is a [string] of 8-bit characters; [trim] and
      [toLocaleLowerCase] act on the ASCII range.
    - Integers that the component computes with ([maxIndex],
      [selectedIndex], [retry], [Date.now()]) are in [Z]; none of them
      leaves the range where JavaScript numbers are exact.
    - A function that can [throw] returns a [result]; the component's
      methods run in the monad [M], which keeps the state reached when
      the exception was raised.
    - What a method does besides writing its refs (a call of the filter
      of the host, an emission, a timer set) is appended to the [effects]
      of the state.
    - The handlers of the keyboard, of the focus, of the promise and of
      the timer are modelled; those of the pointer ([handleOptionClick],
      [backgroundClick]) are not. *)

From Stdlib Require Import ZArith List String Ascii Bool Lia DecimalString.
Import ListNotations.
Local Open Scope string_scope.
Local Open Scope Z_scope.

Set Implicit Arguments.
Set Warnings "-register-all".

(** ** JavaScript values *)

Inductive JsVal : Type :=
| JUndefined
| JNull
| JBool (b : bool)
| JNum (repr : string)
| JStr (s : string)
| JArr (items : list JsVal)
| JObj (fields : list (string * JsVal))
| JFun
| JPromise (pid : nat).

(** [JNum repr] is a number carried by the text that [String(n)] gives for
    it: the component reads [typeof] of a raw number and converts it to a
    string, and nothing else. *)

Definition Obj : Type := list (string * JsVal).

Inductive JsError : Type :=
| TypeError
| Error (msg : string).

Inductive result (A : Type) : Type :=
| Ok (a : A)
| Throw (e : JsError).

Arguments Ok {A} a.
Arguments Throw {A} e.

Definition rbind {A B} (r : result A) (k : A -> result B) : result B :=
  match r with
  | Ok a => k a
  | Throw e => Throw e
  end.

Declare Scope res_scope.
Delimit Scope res_scope with res.
Notation "x <- r ;; k" := (rbind r (fun x => k))
  (at level 61, r at next level, right associativity) : res_scope.

(** [typeof v] *)
Definition typeof (v : JsVal) : string :=
  match v with
  | JUndefined => "undefined"
  | JNull => "object"
  | JBool _ => "boolean"
  | JNum _ => "number"
  | JStr _ => "string"
  | JArr _ => "object"
  | JObj _ => "object"
  | JFun => "function"
  | JPromise _ => "object"
  end.

(** ToBoolean *)
Definition truthy (v : JsVal) : bool :=
  match v with
  | JUndefined | JNull => false
  | JBool b => b
  | JNum r => negb (String.eqb r "0" || String.eqb r "NaN")
  | JStr s => negb (String.eqb s EmptyString)
  | _ => true
  end.

(** ** Objects: own properties, in insertion order *)

Fixpoint obj_get (k : string) (o : Obj) : JsVal :=
  match o with
  | [] => JUndefined
  | (k', v) :: o' => if String.eqb k k' then v else obj_get k o'
  end.

(** [o[k] = v]: an existing key keeps its place. *)
Fixpoint obj_set (k : string) (v : JsVal) (o : Obj) : Obj :=
  match o with
  | [] => [(k, v)]
  | (k', v') :: o' =>
      if String.eqb k k' then (k, v) :: o' else (k', v') :: obj_set k v o'
  end.

(** [v.k] for the keys the component reads ([value], [label], [icon]):
    reading a property of [undefined] or [null] throws, and no prototype
    has a member of one of these names. *)
Definition get_prop (v : JsVal) (k : string) : result JsVal :=
  match v with
  | JUndefined | JNull => Throw TypeError
  | JObj o => Ok (obj_get k o)
  | _ => Ok JUndefined
  end.

(** [arr[i]] *)
Definition arr_get {A} (l : list A) (i : Z) : option A :=
  if i <? 0 then None else nth_error l (Z.to_nat i).

Definition arr_length {A} (l : list A) : Z := Z.of_nat (List.length l).

(** ** Strings *)

(** WhiteSpace and LineTerminator in the ASCII range. *)
Definition is_space (c : ascii) : bool :=
  let n := nat_of_ascii c in
  ((9 <=? n)%nat && (n <=? 13)%nat) || (n =? 32)%nat.

Fixpoint drop_spaces (l : list ascii) : list ascii :=
  match l with
  | [] => []
  | c :: l' => if is_space c then drop_spaces l' else l
  end.

(** [s.trim()] *)
Definition trim (s : string) : string :=
  string_of_list_ascii
    (rev (drop_spaces (rev (drop_spaces (list_ascii_of_string s))))).

Definition lower_char (c : ascii) : ascii :=
  let n := nat_of_ascii c in
  if ((65 <=? n)%nat && (n <=? 90)%nat) then ascii_of_nat (n + 32) else c.

(** [s.toLocaleLowerCase()] *)
Fixpoint toLocaleLowerCase (s : string) : string :=
  match s with
  | EmptyString => EmptyString
  | String c s' => String (lower_char c) (toLocaleLowerCase s')
  end.

(** [hay.includes(needle)] *)
Fixpoint includes (hay needle : string) : bool :=
  String.prefix needle hay
  || match hay with
     | EmptyString => false
     | String _ hay' => includes hay' needle
     end.

(** the decimal text of an integer, as a template literal prints it *)
Definition string_of_Z (z : Z) : string :=
  NilZero.string_of_int (Z.to_int z).

(** [`${_index}`] for an index that is [null] or an integer *)
Definition index_text (i : option Z) : string :=
  match i with
  | Some z => string_of_Z z
  | None => "null"
  end.

(** ** data-utils *)

(** Modelled from the spec: [isObj] of [utils/data-utils], which is not
    among the sources. The specification calls its positive case a
    "structured record": an object that is neither [null], an array, a
    function nor a promise. *)
Definition isObj (v : JsVal) : bool :=
  match v with
  | JObj _ => true
  | _ => false
  end.

(** Modelled from the spec: [isStrNum] of [utils/data-utils], which is
    not among the sources. "if it is a string or number". *)
Definition isStrNum (v : JsVal) : bool :=
  match v with
  | JStr _ | JNum _ => true
  | _ => false
  end.

(** Modelled from the spec: [nullStr] of [utils/data-utils], which is not
    among the sources. On a string or a number it is the specification's
    [str(item)]; the specification does not say what it returns on
    anything else, which is left to [other]. *)
Definition nullStr (other : JsVal -> string) (v : JsVal) : string :=
  match v with
  | JStr s => s
  | JNum r => r
  | _ => other v
  end.

(** ** event.utils: the faux input event *)

Record ValidityState : Type := {
  badInput : bool;
  customError : bool;
  patternMismatch : bool;
  rangeOverflow : bool;
  rangeUnderflow : bool;
  stepMismatch : bool;
  tooShort : bool;
  typeMismatch : bool;
  valid : bool;
  valueMissing : bool
}.

(** The three flags [getEmitData] sets, in the order of its literal. *)
Record EmitValidity : Type := {
  ev_valid : bool;
  ev_badInput : bool;
  ev_valueMissing : bool
}.

Record FauxTarget : Type := {
  validity : ValidityState;
  value : JsVal;
  rawValue : JsVal;
  localName : string;
  nodeName : string;
  tagName : string
}.

Record FauxEvent : Type := {
  type : string;
  target : FauxTarget
}.

(** [fauxEventTarget(value, rawValue, validity)] with [otherProps = {}]:
    the defaults, overwritten by the spread of [validity]. The tag is
    always ["input"], and its upper case is written out. *)
Definition fauxEventTarget (value rawValue : JsVal) (v : EmitValidity)
  : FauxTarget :=
  {| validity :=
       {| badInput := ev_badInput v;
          customError := false;
          patternMismatch := false;
          rangeOverflow := false;
          rangeUnderflow := false;
          stepMismatch := false;
          tooShort := false;
          typeMismatch := false;
          valid := ev_valid v;
          valueMissing := ev_valueMissing v |};
     value := value;
     rawValue := rawValue;
     localName := "input";
     nodeName := "INPUT";
     tagName := "INPUT" |}.

(** [target.checkValidity()] *)
Definition checkValidity (t : FauxTarget) : bool :=
  let v := validity t in
  negb (badInput v || customError v || patternMismatch v || rangeOverflow v
        || rangeUnderflow v || stepMismatch v || tooShort v
        || typeMismatch v || negb (valid v) || valueMissing v).

(** [getFauxInputEvent(value, rawValue, validity)]: [rawValue] is kept
    unless it is [undefined]. *)
Definition getFauxInputEvent (value rawValue : JsVal) (v : EmitValidity)
  : FauxEvent :=
  {| type := "change";
     target :=
       fauxEventTarget value
         (if String.eqb (typeof rawValue) "undefined" then value else rawValue)
         v |}.

(** ** combobox.utils *)

Record EmitData : Type := {
  output : JsVal;
  emit_validity : EmitValidity;
  empty : bool;
  rawOutput : option Obj;
  bad : bool
}.

(** [arr[i]] as a value: [undefined] outside the array. *)
Definition arr_at (l : list JsVal) (i : Z) : JsVal :=
  match arr_get l i with
  | Some v => v
  | None => JUndefined
  end.

(** [{ ...v }]: the own properties of an object (the component spreads
    nothing else). *)
Definition spread (v : JsVal) : Obj :=
  match v with
  | JObj o => o
  | _ => []
  end.

(** [null] or an object, as a value *)
Definition of_nullable (o : option Obj) : JsVal :=
  match o with
  | Some o => JObj o
  | None => JNull
  end.

(** [getEmitData(_options, _index, _str)]; [_index] is [null] ([None]) or
    a number, [rawOutput] is [null] ([None]) or the copy of an option. *)
Definition getEmitData (_options : list JsVal) (_index : option Z)
    (_str : string) : EmitData :=
  let empty := (arr_length _options =? 0) in
  let rawOutput : option Obj :=
    match _index with
    | Some i =>
        if negb empty && isObj (arr_at _options i)
        then Some (spread (arr_at _options i))
        else None
    | None => None
    end in
  let bad := match rawOutput with None => true | Some _ => false end in
  {| output :=
       match rawOutput with
       | None => JStr EmptyString
       | Some o => obj_get "value" o
       end;
     emit_validity :=
       if bad
       then {| ev_valid := false;
               ev_badInput := String.eqb (trim _str) EmptyString || empty;
               ev_valueMissing := true |}
       else {| ev_valid := true; ev_badInput := false;
               ev_valueMissing := false |};
     empty := empty;
     rawOutput := rawOutput;
     bad := bad |}.

(** The test of [defaultFilter]'s callback on one item:
    [item.value.toLocaleLowerCase().includes(val) || (typeof item.label)].
    [toLocaleLowerCase] exists on strings only. *)
Definition defaultFilter_test (val : string) (item : JsVal) : result bool :=
  (v <- get_prop item "value" ;;
   lv <- match v with
         | JStr s => Ok (toLocaleLowerCase s)
         | _ => Throw TypeError
         end ;;
   if includes lv val then Ok true
   else
     l <- get_prop item "label" ;;
     Ok (truthy (JStr (typeof l))))%res.

(** [Array.prototype.filter] with a callback that can throw *)
Fixpoint filterM {A} (f : A -> result bool) (l : list A) : result (list A) :=
  match l with
  | [] => Ok []
  | x :: l' =>
      (b <- f x ;;
       r <- filterM f l' ;;
       Ok (if b then x :: r else r))%res
  end.

(** [defaultFilter(optionList, value, options)] *)
Definition defaultFilter (optionList : list JsVal) (value : JsVal)
    (options : list JsVal) : result (list JsVal) :=
  match value with
  | JStr s =>
      if (arr_length optionList >? 0) then
        let val := toLocaleLowerCase (trim s) in
        if negb (String.eqb val EmptyString)
        then filterM (defaultFilter_test val) optionList
        else Ok options
      else Ok options
  | _ => Ok options
  end.

(** [Array.prototype.map] with a callback that can throw *)
Fixpoint mapM {A B} (f : A -> result B) (l : list A) : result (list B) :=
  match l with
  | [] => Ok []
  | x :: l' =>
      (y <- f x ;;
       r <- mapM f l' ;;
       Ok (y :: r))%res
  end.

Definition getOptionItem_noName : string :=
  "getOptionItem() could not find a property name for either "
  ++ "value or label".

Definition getOptionItem_badType (item : JsVal) : string :=
  "getOptionItem()  expects each item to be a string, number or "
  ++ "object. Received " ++ typeof item.

(** [['Backspace', 'Delete'].includes(str)] *)
Definition is_edit_key (str : string) : bool :=
  String.eqb str "Backspace" || String.eqb str "Delete".

(** [isPrintableCharacter(str)]: one character that is not white space
    or is a space, or one of the two editing keys. *)
Definition isPrintableCharacter (str : string) : bool :=
  match str with
  | String c EmptyString => negb (is_space c) || Ascii.eqb c " "
  | _ => false
  end
  || is_edit_key str.


(** ** ComboboxInput.vue: properties, state, effects *)

Module Props.
(** The properties the script reads. [debounceFilter] is [None] when
    the attribute is left at its default, [null]; a secondary filter that
    is given returns an array or throws. [filter] is the callback of the
    host: its answer is an array, a promise or anything else. *)
Record t : Type := {
  autoSelect : bool;
  debounceTime : Z;
  debounceFilter :
    option (list JsVal -> JsVal -> list JsVal -> result (list JsVal));
  filter : string -> JsVal;
  id : string;
  loop : bool;
  required : bool;
  value : string
}.
End Props.

(** The one function handed to [setTimeout]. *)
Inductive Callback : Type :=
| ResetDebounce.

(** What a method does besides writing the refs, in the order done. *)
Inductive Effect : Type :=
| FilterCall (str : string)
| EmitChange (ev : FauxEvent)
| EmitInvalid (bad : bool)
| InputFocus
| SetTimeout (cb : Callback) (ms : Z)
| PromiseThenCatch (pid : nat)
| ConsoleError (msg : string).

(** The refs of the component; [inputValue] is the [value] of the input
    element behind [comboboxInput], as last assigned by the script. *)
Record State : Type := {
  activeID : option string;
  activeVal : option JsVal;
  filterStr : string;
  fetching : bool;
  maxIndex : Z;
  options : list JsVal;
  rawOptions : list JsVal;
  retry : Z;
  selectedIndex : option Z;
  showList : bool;
  inputValue : JsVal;
  effects : list Effect
}.

Definition set_activeID (v : option string) (st : State) : State :=
  {| activeID := v; activeVal := activeVal st; filterStr := filterStr st;
     fetching := fetching st; maxIndex := maxIndex st;
     options := options st; rawOptions := rawOptions st; retry := retry st;
     selectedIndex := selectedIndex st; showList := showList st;
     inputValue := inputValue st; effects := effects st |}.

Definition set_activeVal (v : option JsVal) (st : State) : State :=
  {| activeID := activeID st; activeVal := v; filterStr := filterStr st;
     fetching := fetching st; maxIndex := maxIndex st;
     options := options st; rawOptions := rawOptions st; retry := retry st;
     selectedIndex := selectedIndex st; showList := showList st;
     inputValue := inputValue st; effects := effects st |}.

Definition set_filterStr (v : string) (st : State) : State :=
  {| activeID := activeID st; activeVal := activeVal st; filterStr := v;
     fetching := fetching st; maxIndex := maxIndex st;
     options := options st; rawOptions := rawOptions st; retry := retry st;
     selectedIndex := selectedIndex st; showList := showList st;
     inputValue := inputValue st; effects := effects st |}.

Definition set_fetching (v : bool) (st : State) : State :=
  {| activeID := activeID st; activeVal := activeVal st;
     filterStr := filterStr st; fetching := v; maxIndex := maxIndex st;
     options := options st; rawOptions := rawOptions st; retry := retry st;
     selectedIndex := selectedIndex st; showList := showList st;
     inputValue := inputValue st; effects := effects st |}.

Definition set_maxIndex (v : Z) (st : State) : State :=
  {| activeID := activeID st; activeVal := activeVal st;
     filterStr := filterStr st; fetching := fetching st; maxIndex := v;
     options := options st; rawOptions := rawOptions st; retry := retry st;
     selectedIndex := selectedIndex st; showList := showList st;
     inputValue := inputValue st; effects := effects st |}.

Definition set_options (v : list JsVal) (st : State) : State :=
  {| activeID := activeID st; activeVal := activeVal st;
     filterStr := filterStr st; fetching := fetching st;
     maxIndex := maxIndex st; options := v; rawOptions := rawOptions st;
     retry := retry st; selectedIndex := selectedIndex st;
     showList := showList st; inputValue := inputValue st;
     effects := effects st |}.

Definition set_rawOptions (v : list JsVal) (st : State) : State :=
  {| activeID := activeID st; activeVal := activeVal st;
     filterStr := filterStr st; fetching := fetching st;
     maxIndex := maxIndex st; options := options st; rawOptions := v;
     retry := retry st; selectedIndex := selectedIndex st;
     showList := showList st; inputValue := inputValue st;
     effects := effects st |}.

Definition set_retry (v : Z) (st : State) : State :=
  {| activeID := activeID st; activeVal := activeVal st;
     filterStr := filterStr st; fetching := fetching st;
     maxIndex := maxIndex st; options := options st;
     rawOptions := rawOptions st; retry := v;
     selectedIndex := selectedIndex st; showList := showList st;
     inputValue := inputValue st; effects := effects st |}.

Definition set_selectedIndex (v : option Z) (st : State) : State :=
  {| activeID := activeID st; activeVal := activeVal st;
     filterStr := filterStr st; fetching := fetching st;
     maxIndex := maxIndex st; options := options st;
     rawOptions := rawOptions st; retry := retry st; selectedIndex := v;
     showList := showList st; inputValue := inputValue st;
     effects := effects st |}.

Definition set_showList (v : bool) (st : State) : State :=
  {| activeID := activeID st; activeVal := activeVal st;
     filterStr := filterStr st; fetching := fetching st;
     maxIndex := maxIndex st; options := options st;
     rawOptions := rawOptions st; retry := retry st;
     selectedIndex := selectedIndex st; showList := v;
     inputValue := inputValue st; effects := effects st |}.

Definition set_inputValue (v : JsVal) (st : State) : State :=
  {| activeID := activeID st; activeVal := activeVal st;
     filterStr := filterStr st; fetching := fetching st;
     maxIndex := maxIndex st; options := options st;
     rawOptions := rawOptions st; retry := retry st;
     selectedIndex := selectedIndex st; showList := showList st;
     inputValue := v; effects := effects st |}.

(** An effect is appended to those done so far. *)
Definition log (e : Effect) (st : State) : State :=
  {| activeID := activeID st; activeVal := activeVal st;
     filterStr := filterStr st; fetching := fetching st;
     maxIndex := maxIndex st; options := options st;
     rawOptions := rawOptions st; retry := retry st;
     selectedIndex := selectedIndex st; showList := showList st;
     inputValue := inputValue st; effects := effects st ++ [e] |}.

(** ** The monad of the methods

    A method reads and writes the refs and may throw; what it wrote before
    throwing stays written. *)

Definition M (A : Type) : Type := State -> State * result A.

Definition ret {A} (a : A) : M A := fun st => (st, Ok a).

Definition bind {A B} (m : M A) (k : A -> M B) : M B :=
  fun st =>
    match m st with
    | (st', Ok a) => k a st'
    | (st', Throw e) => (st', Throw e)
    end.

Definition throw {A} (e : JsError) : M A := fun st => (st, Throw e).

Definition lift {A} (r : result A) : M A := fun st => (st, r).

Definition get : M State := fun st => (st, Ok st).

Definition modify (f : State -> State) : M unit := fun st => (f st, Ok tt).

Definition tell (e : Effect) : M unit := modify (log e).

Definition when (b : bool) (m : M unit) : M unit :=
  if b then m else ret tt.

(** [m.catch(h)] on the promise chain, and [try m catch h] alike. *)
Definition catch {A} (m : M A) (h : JsError -> M A) : M A :=
  fun st =>
    match m st with
    | (st', Throw e) => h e st'
    | r => r
    end.

Declare Scope method_scope.
Delimit Scope method_scope with method.
Notation "x <- m ;; k" := (bind m (fun x => k))
  (at level 61, m at next level, right associativity) : method_scope.
Notation "m ;; k" := (bind m (fun _ => k))
  (at level 61, right associativity) : method_scope.

(** ** Events of the browser *)

(** [event.target], with the two members the script reads: its [value]
    and its [dataset] (absent on a node that is not an element). *)
Record EventTarget : Type := {
  target_value : string;
  dataset : option (list (string * string))
}.

Record KeyEvent : Type := {
  key : string;
  ctrlKey : bool;
  event_target : option EventTarget
}.

(** [dataset.value]: a string when the attribute [data-value] is set *)
Fixpoint dataset_get (k : string) (d : list (string * string))
  : option string :=
  match d with
  | [] => None
  | (k', v) :: d' => if String.eqb k k' then Some v else dataset_get k d'
  end.

(** The text of [`${error}`] *)
Definition error_text (e : JsError) : string :=
  match e with
  | TypeError => "TypeError"
  | Error msg => "Error: " ++ msg
  end.

(** What the component is given: its properties by the host application,
    and three functions of modules that are not among the sources. *)
Module Host.
Record t : Type := {
  props : Props.t;
  (** what [nullStr] returns on a value that is neither a string nor a
      number *)
  nullStr_other : JsVal -> string;
  (** [getNormaliseSingleOption('', true)] of [radio-select.utils]: the
      function that maps the fields of a structured item to [value],
      [label] and [icon] *)
  normaliseSingleOption : JsVal -> result JsVal;
  (** [getEpre('ComboboxInput', props.id)] of [general-utils]: from a
      method name to the prefix of an error message *)
  ePre : string -> string
}.
End Host.

Section Combobox.

Variable host : Host.t.

Local Abbreviation props := (Host.props host).
Local Abbreviation nullStr_other := (Host.nullStr_other host).
Local Abbreviation normaliseSingleOption := (Host.normaliseSingleOption host).
Local Abbreviation ePre := (Host.ePre host).

(** [getOptionItem(func)(item)] *)
Definition getOptionItem (func : JsVal -> result JsVal) (item : JsVal)
  : result JsVal :=
  if isStrNum item then
    let tmp := nullStr nullStr_other item in
    Ok (JObj [("value", JStr tmp); ("label", JStr tmp);
              ("default", JStr tmp); ("icon", JStr EmptyString)])
  else if isObj item then
    (_item <- func
       (JObj (obj_set "icon"
                (if negb (String.eqb (typeof (obj_get "icon" (spread item)))
                                     "undefined")
                 then JStr (nullStr nullStr_other
                              (obj_get "icon" (spread item)))
                 else JStr EmptyString)
                (spread item))) ;;
     v <- get_prop _item "value" ;;
     match v with
     | JStr EmptyString => Throw (Error getOptionItem_noName)
     | _ =>
         l <- get_prop _item "label" ;;
         match l with
         | JStr EmptyString => Throw (Error getOptionItem_noName)
         | _ => Ok _item
         end
     end)%res
  else Throw (Error (getOptionItem_badType item)).

(** [getRawOptions(optionlist)] *)
Definition getRawOptions (optionlist : list JsVal) : result (list JsVal) :=
  mapM (getOptionItem normaliseSingleOption) optionlist.


(** ** ComboboxInput.vue: the methods *)

Local Open Scope method_scope.

(** [bouncingFilter], as [onBeforeMount] sets it *)
Definition bouncingFilter
  : list JsVal -> JsVal -> list JsVal -> result (list JsVal) :=
  match Props.debounceFilter props with
  | Some f => f
  | None => defaultFilter
  end.

Definition getID (block : string) : string :=
  block ++ "--" ++ Props.id props.

(** [emitChange(_options, _index, _str, comboboxInput.value, _close)] *)
Definition emitChange (_options : list JsVal) (_index : option Z)
    (_str : string) (_close : bool) : M unit :=
  let d := getEmitData _options _index _str in
  when _close
    (modify (set_inputValue
               (match rawOutput d with
                | None => JStr EmptyString
                | Some o => obj_get "label" o
                end)) ;;
     tell InputFocus) ;;
  modify (set_activeID
            (if bad d then None
             else Some (getID "item" ++ "--" ++ index_text _index))) ;;
  modify (set_activeVal (if bad d then None else Some (output d))) ;;
  tell (EmitChange
          (getFauxInputEvent (output d) (of_nullable (rawOutput d))
             (emit_validity d))) ;;
  when (Props.required props) (tell (EmitInvalid (bad d))).

Definition decrement (step : Z) : M unit :=
  st <- get ;;
  when (maxIndex st >? -1)
    (match selectedIndex st with
     | None => modify (set_selectedIndex (Some (maxIndex st)))
     | Some sel =>
         let newVal := sel - step in
         if newVal >=? 0 then modify (set_selectedIndex (Some newVal))
         else if Props.loop props
              then modify (set_selectedIndex (Some (maxIndex st)))
              else modify (set_selectedIndex (Some 0))
     end ;;
     st' <- get ;;
     emitChange (options st') (selectedIndex st') (filterStr st') false).

Definition increment (step : Z) : M unit :=
  st <- get ;;
  when (maxIndex st >? -1)
    (match selectedIndex st with
     | None => modify (set_selectedIndex (Some (-1 + step)))
     | Some sel =>
         let newVal := sel + step in
         if newVal <=? maxIndex st
         then modify (set_selectedIndex (Some newVal))
         else if Props.loop props
              then modify (set_selectedIndex (Some 0))
              else modify (set_selectedIndex (Some (maxIndex st)))
     end ;;
     st' <- get ;;
     emitChange (options st') (selectedIndex st') (filterStr st') false).

Definition resetDebounce : M unit :=
  modify (set_retry 0).

Definition setOptions (optionList : list JsVal) : M unit :=
  raw <- lift (getRawOptions optionList) ;;
  modify (set_rawOptions raw) ;;
  opts <- lift (getRawOptions optionList) ;;
  modify (set_options opts) ;;
  modify (set_maxIndex (arr_length optionList - 1)) ;;
  st <- get ;;
  (* [output !== null] and [ok === false], as the two branches set them *)
  let auto := (arr_length optionList =? 1) && Props.autoSelect props in
  let not_ok := negb auto && (maxIndex st <? 0) in
  when auto (modify (set_selectedIndex (Some 0))) ;;
  when (auto || not_ok)
    (st' <- get ;;
     emitChange (options st') (selectedIndex st') (filterStr st') false).

(** [setOptionsThen(response)] *)
Definition setOptionsThen (response : JsVal) : M unit :=
  match response with
  | JArr items =>
      modify (set_fetching false) ;;
      modify (set_retry 0) ;;
      setOptions items
  | _ => throw (Error EmptyString)
  end.

(** The handler given to [.catch] in [getOptionList] *)
Definition filterFailed (error : string) : M unit :=
  modify (set_fetching false) ;;
  modify (set_retry 0) ;;
  modify (set_maxIndex (-1)) ;;
  tell (ConsoleError
          (ePre "handleInputKeyUp" ++ " filter fetch failed "
           ++ "with error: " ++ String (ascii_of_nat 34) error
           ++ String (ascii_of_nat 34) EmptyString)).

Definition getOptionList_badFilter (tmp : JsVal) : string :=
  ePre "handleInputKeyUp" ++ " expects `filter` "
  ++ "attribute to return either an array or a Promise. "
  ++ typeof tmp ++ " returned".

(** [getOptionList(str)], with [now] the value of [Date.now()] *)
Definition getOptionList (str : string) (now : Z) : M unit :=
  st <- get ;;
  if negb (fetching st) || (retry st <? now) then
    modify (set_fetching false) ;;
    modify (set_retry 0) ;;
    tell (FilterCall str) ;;
    let tmp := Props.filter props str in
    modify (set_showList true) ;;
    match tmp with
    | JArr items => setOptions items
    | JPromise pid =>
        modify (set_fetching true) ;;
        modify (set_retry (now + Props.debounceTime props)) ;;
        tell (SetTimeout ResetDebounce (Props.debounceTime props)) ;;
        tell (PromiseThenCatch pid)
    | _ => throw (Error (getOptionList_badFilter tmp))
    end
  else
    opts <- lift (bouncingFilter (rawOptions st) (JStr str) (options st)) ;;
    modify (set_options opts).

(** The loop of [handleEnter]: the first index [a], counted from
    [from], with [rawOptions[a].value === val]. *)
Fixpoint findValue (val : string) (l : list JsVal) (from : Z)
  : result (option Z) :=
  match l with
  | [] => Ok None
  | x :: l' =>
      (v <- get_prop x "value" ;;
       match v with
       | JStr s =>
           if String.eqb s val then Ok (Some from)
           else findValue val l' (from + 1)
       | _ => findValue val l' (from + 1)
       end)%res
  end.

(** [event.target.dataset.value] when all three exist and it is a
    string, the empty string otherwise *)
Definition dataValue (event : KeyEvent) : string :=
  match event_target event with
  | Some t =>
      match dataset t with
      | Some d =>
          match dataset_get "value" d with
          | Some s => s
          | None => EmptyString
          end
      | None => EmptyString
      end
  | None => EmptyString
  end.

Definition handleEnter (event : KeyEvent) : M unit :=
  let val := dataValue event in
  modify (set_selectedIndex None) ;;
  when (negb (String.eqb val EmptyString))
    (st <- get ;;
     found <- lift (findValue val (rawOptions st) 0) ;;
     match found with
     | Some a => modify (set_selectedIndex (Some a))
     | None => ret tt
     end) ;;
  st <- get ;;
  emitChange (rawOptions st) (selectedIndex st) (filterStr st) true ;;
  modify (set_showList false).

Definition handleInputFocus (now : Z) : M unit :=
  st <- get ;;
  when (arr_length (rawOptions st) >? 0)
    (modify (set_showList true) ;;
     getOptionList (filterStr st) now).

Definition key_in (k : string) (l : list string) : bool :=
  existsb (String.eqb k) l.

Definition handleKeyboardNav (key : string) (ctrl : bool)
    (event : KeyEvent) : M unit :=
  let step := if ctrl then 5 else 1 in
  st <- get ;;
  when (maxIndex st >? -1)
    (if key_in key ["ArrowDown"; "Down"] then increment step
     else if key_in key ["ArrowUp"; "Up"] then decrement step
     else if key_in key ["PageUp"] then decrement 10
     else if key_in key ["PageDown"] then increment 10
     else if key_in key ["Home"] then modify (set_selectedIndex (Some 0))
     else if key_in key ["End"]
          then modify (set_selectedIndex (Some (maxIndex st)))
     else if key_in key ["Enter"; "Return"] then handleEnter event
     else if key_in key ["Esc"; "Escape"] then
       modify (set_selectedIndex None) ;;
       st' <- get ;;
       emitChange (options st') (selectedIndex st') (filterStr st') true ;;
       modify (set_showList false)
     else ret tt).

Definition handleInputKeyUp (event : KeyEvent) (now : Z) : M unit :=
  match event_target event with
  | None => throw TypeError
  | Some t =>
      let val := target_value t in
      if isPrintableCharacter (key event) then
        modify (set_filterStr val) ;;
        getOptionList val now
      else handleKeyboardNav (key event) (ctrlKey event) event
  end.

Definition handleOptionKeyUp (event : KeyEvent) : M unit :=
  handleKeyboardNav (key event) (ctrlKey event) event.

(** The promise of the filter settles: [setOptionsThen] on its value,
    and the [.catch] handler on a rejection or on what [setOptionsThen]
    throws. *)
Inductive Settled : Type :=
| Resolved (response : JsVal)
| Rejected (error : string).

Definition promiseSettled (s : Settled) : M unit :=
  match s with
  | Resolved response =>
      catch (setOptionsThen response) (fun e => filterFailed (error_text e))
  | Rejected error => filterFailed error
  end.

(** The timer set by [getOptionList] fires. *)
Definition timerFired (cb : Callback) : M unit :=
  match cb with
  | ResetDebounce => resetDebounce
  end.

(** The refs as declared, after [onMounted] has copied [props.value]
    into the input. *)
Definition initial : State :=
  {| activeID := None; activeVal := None; filterStr := EmptyString;
     fetching := false; maxIndex := -1; options := []; rawOptions := [];
     retry := 0; selectedIndex := None; showList := false;
     inputValue := JStr (Props.value props); effects := [] |}.

End Combobox.

(** ** The component as a state machine *)

(** What the browser delivers to a mounted component: a key released in
    the input or in the list, the input focused, the promise of the
    filter settled, the timer fired. Pointer events are not modelled. *)
Inductive Input : Type :=
| InputKeyUp (event : KeyEvent) (now : Z)
| OptionKeyUp (event : KeyEvent)
| InputFocused (now : Z)
| PromiseSettled (s : Settled)
| TimerFired (cb : Callback).

Section Machine.

Variable host : Host.t.

Definition step (i : Input) : M unit :=
  match i with
  | InputKeyUp event now => handleInputKeyUp host event now
  | OptionKeyUp event => handleOptionKeyUp host event
  | InputFocused now => handleInputFocus host now
  | PromiseSettled s => promiseSettled host s
  | TimerFired cb => timerFired cb
  end.

(** An exception that leaves a handler is not caught by the script: the
    refs keep what the handler wrote. *)
Definition after (st : State) (inputs : list Input) : State :=
  fold_left (fun st i => fst (step i st)) inputs st.

Inductive reachable : State -> Prop :=
| reachable_initial : reachable (initial host)
| reachable_step st i : reachable st -> reachable (fst (step i st)).

End Machine.

(** ** Definitions of the statements *)

(** [_index] is the index of the object [o] in [_options]. *)
Definition refers_to (_options : list JsVal) (_index : option Z) (o : Obj)
  : Prop :=
  exists i, _index = Some i /\ 0 <= i
            /\ nth_error _options (Z.to_nat i) = Some (JObj o).

Definition all_valid : EmitValidity :=
  {| ev_valid := true; ev_badInput := false; ev_valueMissing := false |}.

(** The effects of one [emitChange] that does not close the list. *)
Definition emitted (host : Host.t) (_options : list JsVal)
    (_index : option Z) (_str : string) : list Effect :=
  let d := getEmitData _options _index _str in
  EmitChange
    (getFauxInputEvent (output d) (of_nullable (rawOutput d))
       (emit_validity d))
  :: (if Props.required (Host.props host) then [EmitInvalid (bad d)]
      else []).

(** The state in which [getOptionList] looks at what the filter gave. *)
Definition filter_called (str : string) (st : State) : State :=
  set_showList true
    (log (FilterCall str) (set_retry 0 (set_fetching false st))).

(** A method keeps a property of the refs, whether it returns or throws. *)
Definition keeps (P : State -> Prop) {A : Type} (m : M A) : Prop :=
  forall st, P st -> P (fst (m st)).

(** An effect is an emission of [change]. *)
Definition is_change (e : Effect) : bool :=
  match e with
  | EmitChange _ => true
  | _ => false
  end.

(** The selection is an index of the list. *)
Definition in_range (st : State) : Prop :=
  match selectedIndex st with
  | Some i => 0 <= i <= maxIndex st
  | None => False
  end.

(** A navigation by [step] options, forwards or backwards. *)
Inductive Nav : Type :=
| Inc (step : Z)
| Dec (step : Z).

Definition nav_step (n : Nav) : Z :=
  match n with
  | Inc s => s
  | Dec s => s
  end.

Definition nav (host : Host.t) (n : Nav) : M unit :=
  match n with
  | Inc s => increment host s
  | Dec s => decrement host s
  end.

Definition navs (host : Host.t) (l : list Nav) (st : State) : State :=
  fold_left (fun st n => fst (nav host n st)) l st.

(** Where [increment(step)] and [decrement(step)] put the selection. *)
Definition incremented (host : Host.t) (step : Z) (st : State) : Z :=
  match selectedIndex st with
  | None => -1 + step
  | Some sel =>
      if sel + step <=? maxIndex st then sel + step
      else if Props.loop (Host.props host) then 0 else maxIndex st
  end.

Definition decremented (host : Host.t) (step : Z) (st : State) : Z :=
  match selectedIndex st with
  | None => maxIndex st
  | Some sel =>
      if sel - step >=? 0 then sel - step
      else if Props.loop (Host.props host) then maxIndex st else 0
  end.

(** A value whose properties can be read: not [undefined], not [null]. *)
Definition readable (v : JsVal) : Prop :=
  match v with
  | JUndefined | JNull => False
  | _ => True
  end.

(** Every cached option can be read. *)
Definition raw_ok (st : State) : Prop := Forall readable (rawOptions st).

(** The option [x] is an object whose [value] is the string [val]. *)
Definition has_value (val : string) (x : JsVal) : Prop :=
  exists o, x = JObj o /\ obj_get "value" o = JStr val.

(** [o] is the first option of [l] with the value [val], at index [i]. *)
Definition first_match (val : string) (l : list JsVal) (i : nat) (o : Obj)
  : Prop :=
  nth_error l i = Some (JObj o)
  /\ obj_get "value" o = JStr val
  /\ forall j x, (j < i)%nat -> nth_error l j = Some x -> ~ has_value val x.

(** The text of a field of an option, empty when it is not a string. *)
Definition str_field (k : string) (item : JsVal) : string :=
  match obj_get k (spread item) with
  | JStr s => s
  | _ => EmptyString
  end.

(** The default secondary filter as the specification words it: the
    options whose value or label contains the query, letter case apart. *)
Definition contains_query (query : string) (item : JsVal) : bool :=
  includes (toLocaleLowerCase (str_field "value" item))
           (toLocaleLowerCase (trim query))
  || includes (toLocaleLowerCase (str_field "label" item))
              (toLocaleLowerCase (trim query)).

Definition defaultFilter_spec (optionList : list JsVal) (query : string)
    (options : list JsVal) : list JsVal :=
  match optionList with
  | [] => options
  | _ =>
      if String.eqb (trim query) EmptyString then options
      else List.filter (contains_query query) optionList
  end.

(** The record the specification gives for a string or a number. *)
Definition option_of_text (s : string) : Obj :=
  [("value", JStr s); ("label", JStr s); ("icon", JStr EmptyString)].

(** The record [getOptionItem] builds for a string or a number. *)
Definition option_with_default (s : string) : Obj :=
  [("value", JStr s); ("label", JStr s); ("default", JStr s);
   ("icon", JStr EmptyString)].

(** The item is neither a string, a number nor an object. *)
Definition unsupported (item : JsVal) : Prop :=
  match item with
  | JStr _ | JNum _ | JObj _ => False
  | _ => True
  end.

(** ** The demonstration page

    [App.vue] mounts the component with [auto-select] and the filter
    [getOptions] over the Australian states. *)

Module Demo.

Definition state (v l : string) : JsVal :=
  JObj [("value", JStr v); ("label", JStr l)].

Definition auStates : list JsVal :=
  [ state "ACT" "Australian Captial Territory";
    state "NSW" "New South Wales";
    state "NT" "Northern Territory";
    state "Qld" "Queensland";
    state "SA" "South Australia";
    state "Tas" "Tasmania";
    state "WA" "Western Australia" ].

Definition is_alnum (c : ascii) : bool :=
  let n := nat_of_ascii c in
  ((97 <=? n)%nat && (n <=? 122)%nat) || ((48 <=? n)%nat && (n <=? 57)%nat).

Fixpoint keep_alnum (s : string) : string :=
  match s with
  | EmptyString => EmptyString
  | String c s' =>
      if is_alnum c then String c (keep_alnum s') else keep_alnum s'
  end.

(** [str.toLocaleLowerCase().replace(/[^a-z0-9]+/g, '')] *)
Definition normaliseStr (str : string) : string :=
  keep_alnum (toLocaleLowerCase str).

Definition getOptions (input : string) : JsVal :=
  let val := normaliseStr input in
  JArr
    (map (fun item => JObj (obj_set "icon" (JStr EmptyString) (spread item)))
       (List.filter
          (fun item =>
             includes (normaliseStr (str_field "value" item)) val
             || includes (normaliseStr (str_field "label" item)) val)
          auStates)).

Definition props : Props.t :=
  {| Props.autoSelect := true;
     Props.debounceTime := 500;
     Props.debounceFilter := None;
     Props.filter := getOptions;
     Props.id := "combobox";
     Props.loop := false;
     Props.required := false;
     Props.value := EmptyString |}.

(** The page with an instance of the three functions that are not among
    the sources: a field mapping that finds [value] and [label] where
    they are, and an empty text for what is no string and no number. *)
Definition host : Host.t :=
  {| Host.props := props;
     Host.nullStr_other := fun _ => EmptyString;
     Host.normaliseSingleOption := fun v => Ok v;
     Host.ePre := fun method => "ComboboxInput." ++ method ++ "()" |}.

(** A key released in the input while it shows [text]; [data] is the
    [data-value] of the input, if it has one. *)
Definition keyup (k : string) (ctrl : bool) (text : string)
    (data : option string) : KeyEvent :=
  {| key := k;
     ctrlKey := ctrl;
     event_target :=
       Some {| target_value := text;
               dataset :=
                 Some match data with
                      | Some v => [("value", v)]
                      | None => []
                      end |} |}.

(** A host whose filter answers the empty query at once and any other
    query with a promise, and that narrows the cached options itself, by
    the beginning of their value, while it waits. *)
Definition byPrefix (fullSet : list JsVal) (query : JsVal)
    (currentSet : list JsVal) : result (list JsVal) :=
  match query with
  | JStr q =>
      Ok (List.filter (fun item => String.prefix q (str_field "value" item))
            fullSet)
  | _ => Ok currentSet
  end.

Definition remoteProps : Props.t :=
  {| Props.autoSelect := false;
     Props.debounceTime := 500;
     Props.debounceFilter := Some byPrefix;
     Props.filter :=
       fun input =>
         if String.eqb input EmptyString then JArr auStates else JPromise 0;
     Props.id := "combobox";
     Props.loop := false;
     Props.required := true;
     Props.value := EmptyString |}.

Definition remoteHost : Host.t :=
  {| Host.props := remoteProps;
     Host.nullStr_other := fun _ => EmptyString;
     Host.normaliseSingleOption := fun v => Ok v;
     Host.ePre := fun method => "ComboboxInput." ++ method ++ "()" |}.

(** The user types "n", moves the selection down three times and types
    "s": the states offered for "ns" are New South Wales and Queensland. *)
Definition typed_n_down3 : State :=
  after host (initial host)
    [ InputKeyUp (keyup "n" false "n" None) 1000;
      InputKeyUp (keyup "ArrowDown" false "n" None) 2000;
      InputKeyUp (keyup "ArrowDown" false "n" None) 2100;
      InputKeyUp (keyup "ArrowDown" false "n" None) 2200 ].

(** The user types "ns" and nothing else. *)
Definition typed_ns : State :=
  after host (initial host)
    [ InputKeyUp (keyup "n" false "n" None) 1000;
      InputKeyUp (keyup "s" false "ns" None) 1100 ].

(** The remote host: the field is emptied at 1000 (the seven states come
    back at once), then "N" is typed at 2000 (a promise comes back). *)
Definition remote_waiting : State :=
  after remoteHost (initial remoteHost)
    [ InputKeyUp (keyup "Backspace" false EmptyString None) 1000;
      InputKeyUp (keyup "N" false "N" None) 2000 ].

(** The user types "ns" and moves the selection down twice. *)
Definition typed_ns_down2 : State :=
  after host typed_ns
    [ InputKeyUp (keyup "ArrowDown" false "ns" None) 2000;
      InputKeyUp (keyup "ArrowDown" false "ns" (Some "NSW")) 2100 ].

(** The user types "ns" and moves the selection down once. *)
Definition typed_ns_home : State :=
  after host typed_ns
    [ InputKeyUp (keyup "ArrowDown" false "ns" None) 2000 ].

(** The page with [loop]. *)
Definition loopHost : Host.t :=
  {| Host.props :=
       {| Props.autoSelect := true;
          Props.debounceTime := 500;
          Props.debounceFilter := None;
          Props.filter := getOptions;
          Props.id := "combobox";
          Props.loop := true;
          Props.required := false;
          Props.value := EmptyString |};
     Host.nullStr_other := fun _ => EmptyString;
     Host.normaliseSingleOption := fun v => Ok v;
     Host.ePre := fun method => "ComboboxInput." ++ method ++ "()" |}.

(** A required field whose filter finds nothing. *)
Definition emptyHost : Host.t :=
  {| Host.props :=
       {| Props.autoSelect := false;
          Props.debounceTime := 500;
          Props.debounceFilter := None;
          Props.filter := fun _ => JArr [];
          Props.id := "combobox";
          Props.loop := false;
          Props.required := true;
          Props.value := EmptyString |};
     Host.nullStr_other := fun _ => EmptyString;
     Host.normaliseSingleOption := fun v => Ok v;
     Host.ePre := fun method => "ComboboxInput." ++ method ++ "()" |}.

(** The required field after "x": nothing found. *)
Definition found_nothing : State :=
  after emptyHost (initial emptyHost)
    [ InputKeyUp (keyup "x" false "x" None) 1000 ].

(** The remote host while it waits for "N": "NT" typed at 2100 narrows
    the list shown to the Northern Territory. *)
Definition remote_interim : State :=
  after remoteHost remote_waiting
    [ InputKeyUp (keyup "T" false "NT" None) 2100 ].

(** A host whose filter answers "n" with a list that holds [null], and
    any other query with two states. *)
Definition nullHost : Host.t :=
  {| Host.props :=
       {| Props.autoSelect := false;
          Props.debounceTime := 500;
          Props.debounceFilter := None;
          Props.filter :=
            fun input =>
              if String.eqb input "n" then JArr [JStr "NSW"; JNull]
              else JArr [JStr "NSW"; JStr "NT"];
          Props.id := "combobox";
          Props.loop := false;
          Props.required := false;
          Props.value := EmptyString |};
     Host.nullStr_other := fun _ => EmptyString;
     Host.normaliseSingleOption := fun v => Ok v;
     Host.ePre := fun method => "ComboboxInput." ++ method ++ "()" |}.

Definition typed_ns_nullHost : State :=
  after nullHost (initial nullHost)
    [ InputKeyUp (keyup "s" false "ns" None) 500 ].

(** A host whose filter returns nothing. *)
Definition undefinedHost : Host.t :=
  {| Host.props :=
       {| Props.autoSelect := false;
          Props.debounceTime := 500;
          Props.debounceFilter := None;
          Props.filter := fun _ => JUndefined;
          Props.id := "combobox";
          Props.loop := false;
          Props.required := false;
          Props.value := EmptyString |};
     Host.nullStr_other := fun _ => EmptyString;
     Host.normaliseSingleOption := fun v => Ok v;
     Host.ePre := fun method => "ComboboxInput." ++ method ++ "()" |}.

(** A field whose filter answers with plain strings and numbers. *)
Definition plainHost : Host.t :=
  {| Host.props :=
       {| Props.autoSelect := false;
          Props.debounceTime := 500;
          Props.debounceFilter := None;
          Props.filter := fun _ => JArr [JStr "ACT"; JNum "2600"];
          Props.id := "combobox";
          Props.loop := false;
          Props.required := false;
          Props.value := EmptyString |};
     Host.nullStr_other := fun _ => EmptyString;
     Host.normaliseSingleOption := fun v => Ok v;
     Host.ePre := fun method => "ComboboxInput." ++ method ++ "()" |}.

(** That field after "a". *)
Definition typed_a_plain : State :=
  after plainHost (initial plainHost)
    [ InputKeyUp (keyup "a" false "a" None) 1000 ].

End Demo.

(** ** Definitions of the further statements *)

(** An effect is a call of the filter of the host. *)
Definition is_filter_call (e : Effect) : bool :=
  match e with
  | FilterCall _ => true
  | _ => false
  end.

(** The calls of the filter of the host among the effects, in order. *)
Definition calls (l : list Effect) : list Effect :=
  List.filter is_filter_call l.

(** From [st0] to [st] nothing of the filtering has moved: the options
    shown and cached, [maxIndex], the text filtered by, the session of
    the debounce, and the calls of the filter made so far. *)
Definition unchanged (st0 st : State) : Prop :=
  options st = options st0
  /\ rawOptions st = rawOptions st0
  /\ maxIndex st = maxIndex st0
  /\ filterStr st = filterStr st0
  /\ fetching st = fetching st0
  /\ retry st = retry st0
  /\ calls (effects st) = calls (effects st0).

(** [maxIndex] is -1 or more, and at most the last index of the cached
    options. *)
Definition maxIndex_bounded (st : State) : Prop :=
  -1 <= maxIndex st <= arr_length (rawOptions st) - 1.

(** A deadline is set only while the filter is being waited for. *)
Definition retry_idle (st : State) : Prop :=
  fetching st = false -> retry st = 0.

(** The selection is none or an index that is not negative. *)
Definition selection_nonneg (st : State) : Prop :=
  match selectedIndex st with
  | Some i => 0 <= i
  | None => True
  end.

(** The [value] of the item can be read and is a string. *)
Definition value_is_string (item : JsVal) : Prop :=
  exists s, get_prop item "value" = Ok (JStr s).

(** The text of a string or of a number. *)
Definition text_of (item : JsVal) : string :=
  match item with
  | JStr s => s
  | JNum r => r
  | _ => EmptyString
  end.

(** ** ComboboxItem.vue *)

(** A letter of either case or a digit: [[a-z\d]] under the flag [i]. *)
Definition is_alnum_ci (c : ascii) : bool :=
  let n := nat_of_ascii c in
  ((97 <=? n)%nat && (n <=? 122)%nat)
  || ((65 <=? n)%nat && (n <=? 90)%nat)
  || ((48 <=? n)%nat && (n <=? 57)%nat).

Fixpoint all_alnum_ci (s : string) : bool :=
  match s with
  | EmptyString => true
  | String c s' => is_alnum_ci c && all_alnum_ci s'
  end.

(** The test of the regular expression of [iconType]: somewhere a dot,
    then one letter or digit or more, then the end of the text. *)
Fixpoint has_extension (s : string) : bool :=
  match s with
  | EmptyString => false
  | String c s' =>
      (Ascii.eqb c "." && negb (String.eqb s' EmptyString)
       && all_alnum_ci s')
      || has_extension s'
  end.

Module ComboboxItem.

(** The properties of an item, as the list passes them. *)
Record props : Type := {
  focused : bool;
  icon : JsVal;
  id : string;
  index : Z;
  label : JsVal;
  selected : bool;
  value : JsVal;
  wrap : bool
}.

Definition itemID (p : props) : string :=
  id p ++ "--" ++ string_of_Z (index p).

Definition iconType (p : props) : string :=
  match icon p with
  | JStr s =>
      if String.eqb (trim s) EmptyString then EmptyString
      else if has_extension s then "img" else "icon"
  | _ => EmptyString
  end.

Definition labelTxt (p : props) : JsVal :=
  match label p with
  | JStr s => if negb (String.eqb (trim s) EmptyString) then JStr s
              else value p
  | _ => value p
  end.

Definition itemClass (p : props) : string :=
  let tmp := if wrap p then " whitespace-normal py-2 "
             else " leading-10 truncate " in
  let output :=
    "dropdown-item text-grey-900 cursor-pointer "
    ++ "text-body-m relative px-3 " ++ tmp ++ " "
    ++ "focus:bg-primary-500 focus:text-white focus:outline-none "
    ++ "focus-visible:outline-auto "
    ++ "hover:bg-primary-500 hover:text-white " in
  if focused p || selected p
  then output ++ "bg-primary-500 text-white select outline-auto "
  else output ++ " select-none".

End ComboboxItem.

(** ** ComboboxInput.vue: the list of the template *)

(** A property left [undefined] takes the default of its declaration. *)
Definition prop_or (default v : JsVal) : JsVal :=
  match v with
  | JUndefined => default
  | _ => v
  end.

(** [selectedIndex === index] *)
Definition is_selected (st : State) (index : Z) : bool :=
  match selectedIndex st with
  | Some i => i =? index
  | None => false
  end.

(** The properties the template passes to the item of [option] at
    [index]; [wrap] is the property of that name of the input. *)
Definition item_props (host : Host.t) (wrap : bool) (st : State)
    (index : Z) (option : JsVal) : result ComboboxItem.props :=
  (icon <- get_prop option "icon" ;;
   label <- get_prop option "label" ;;
   value <- get_prop option "value" ;;
   Ok {| ComboboxItem.focused := is_selected st index;
         ComboboxItem.icon := prop_or (JStr EmptyString) icon;
         ComboboxItem.id := getID host "item";
         ComboboxItem.index := index;
         ComboboxItem.label := prop_or (JStr EmptyString) label;
         ComboboxItem.selected := is_selected st index;
         ComboboxItem.value := value;
         ComboboxItem.wrap := wrap |})%res.

(** [v-for="(option, index) in options"], from [index] on *)
Fixpoint render_from (host : Host.t) (wrap : bool) (st : State) (index : Z)
    (opts : list JsVal) : result (list ComboboxItem.props) :=
  match opts with
  | [] => Ok []
  | option :: rest =>
      (p <- item_props host wrap st index option ;;
       ps <- render_from host wrap st (index + 1) rest ;;
       Ok (p :: ps))%res
  end.

(** The items of the list, which is there under [v-if="showList"]. *)
Definition render (host : Host.t) (wrap : bool) (st : State)
  : result (list ComboboxItem.props) :=
  if showList st then render_from host wrap st 0 (options st) else Ok [].

(** The [id] of the item the list renders at [index]. *)
Definition rendered_itemID (host : Host.t) (index : Z) : string :=
  getID host "item" ++ "--" ++ string_of_Z index.

(** The filter of the host always answers with an array. *)
Definition synchronous (host : Host.t) : Prop :=
  forall str, exists items, Props.filter (Host.props host) str = JArr items.

(** The component is not waiting for the filter. *)
Definition idle (st : State) : Prop :=
  fetching st = false /\ retry st = 0.

(** A printable key released in the input not after [deadline]. *)
Definition typed_within (deadline : Z) (i : Input) : Prop :=
  exists event now t,
    i = InputKeyUp event now
    /\ event_target event = Some t
    /\ isPrintableCharacter (key event) = true
    /\ now <= deadline.

(** ** Tactics *)

(** Runs the monad of the methods, leaving the calls of [emitChange] and
    the pure functions as they are. *)
Ltac run :=
  unfold bind, when, modify, tell, get, ret, lift, throw;
  cbn -[emitChange getEmitData getRawOptions arr_length trim bouncingFilter
        findValue index_text].

(** * Properties *)

Unset Implicit Arguments.

(** ** Properties kept by the methods *)

Section Keeps.

Variable P : State -> Prop.

Lemma keeps_ret (A : Type) (a : A) : keeps P (ret a).
Proof. intros st H. exact H. Qed.

Lemma keeps_throw (A : Type) (e : JsError) : keeps P (@throw A e).
Proof. intros st H. exact H. Qed.

Lemma keeps_get : keeps P get.
Proof. intros st H. exact H. Qed.

Lemma keeps_modify (f : State -> State) :
  (forall st, P st -> P (f st)) -> keeps P (modify f).
Proof. intros F st H. apply F, H. Qed.

Lemma keeps_bind (A B : Type) (m : M A) (k : A -> M B) :
  keeps P m -> (forall a, keeps P (k a)) -> keeps P (bind m k).
Proof.
  intros Hm Hk st H. unfold bind. specialize (Hm st H).
  destruct (m st) as [st' [a|e]]; cbn in *; [apply Hk, Hm | exact Hm].
Qed.

Lemma keeps_lift (A B : Type) (r : result A) (k : A -> M B) :
  (forall a, r = Ok a -> keeps P (k a)) -> keeps P (bind (lift r) k).
Proof.
  intros Hk st H. unfold bind, lift.
  destruct r as [a|e]; cbn; [now apply Hk | exact H].
Qed.

Lemma keeps_when (b : bool) (m : M unit) : keeps P m -> keeps P (when b m).
Proof. intros Hm. destruct b; [exact Hm | apply keeps_ret]. Qed.

Lemma keeps_catch (A : Type) (m : M A) (h : JsError -> M A) :
  keeps P m -> (forall e, keeps P (h e)) -> keeps P (catch m h).
Proof.
  intros Hm Hh st H. unfold catch. specialize (Hm st H).
  destruct (m st) as [st' [a|e]]; cbn in *; [exact Hm | apply Hh, Hm].
Qed.

End Keeps.

(** One step in the proof that a method keeps [raw_ok]: through the
    combinators of the monad, with a write to a ref other than
    [rawOptions] closed at once. *)
Ltac keeps_step :=
  match goal with
  | |- keeps _ (bind (lift _) _) => apply keeps_lift; intros ? ?
  | |- keeps _ (bind _ _) => apply keeps_bind; [|intros ?]
  | |- keeps _ (when _ _) => apply keeps_when
  | |- keeps _ (modify _) =>
      apply keeps_modify; let H := fresh in intros ? H; exact H
  | |- keeps _ (tell _) =>
      apply keeps_modify; let H := fresh in intros ? H; exact H
  | |- keeps _ (ret _) => apply keeps_ret
  | |- keeps _ get => apply keeps_get
  | |- keeps _ (throw _) => apply keeps_throw
  | |- keeps _ (match ?x with _ => _ end) => destruct x
  end.

(** ** Arrays and [getEmitData] *)

Lemma arr_at_obj (l : list JsVal) (i : Z) (o : Obj) :
  arr_at l i = JObj o
  <-> (0 <= i /\ nth_error l (Z.to_nat i) = Some (JObj o)).
Proof.
  unfold arr_at, arr_get. destruct (Z.ltb_spec i 0) as [Neg | Pos].
  - split; [discriminate | lia].
  - destruct (nth_error l (Z.to_nat i)) as [v|]; split.
    + intros ->. auto.
    + intros [_ E]. congruence.
    + discriminate.
    + intros [_ E]. discriminate.
Qed.

Lemma isObj_inv (v : JsVal) : isObj v = true -> exists o, v = JObj o.
Proof. destruct v; try discriminate. eauto. Qed.

Lemma arr_length_0 {A : Type} (l : list A) :
  (arr_length l =? 0) = true <-> l = [].
Proof.
  unfold arr_length. rewrite Z.eqb_eq. destruct l as [|x l].
  - split; reflexivity.
  - split; [|discriminate]. intros H. rewrite length_cons in H. lia.
Qed.

Lemma arr_length_cons {A : Type} (x : A) (l : list A) :
  arr_length (x :: l) = arr_length l + 1.
Proof. unfold arr_length. rewrite length_cons. lia. Qed.

Lemma arr_length_nonneg {A : Type} (l : list A) : 0 <= arr_length l.
Proof. unfold arr_length. lia. Qed.

Lemma refers_nonempty (l : list JsVal) (idx : option Z) (o : Obj) :
  refers_to l idx o -> (arr_length l =? 0) = false.
Proof.
  intros (i & _ & _ & E). destruct l.
  - destruct (Z.to_nat i); discriminate.
  - rewrite arr_length_cons. apply Z.eqb_neq.
    pose proof (arr_length_nonneg l). lia.
Qed.

Lemma getEmitData_valid (l : list JsVal) (idx : option Z) (str : string)
    (o : Obj) :
  refers_to l idx o ->
  getEmitData l idx str =
    {| output := obj_get "value" o; emit_validity := all_valid;
       empty := false; rawOutput := Some o; bad := false |}.
Proof.
  intros R. pose proof (refers_nonempty _ _ _ R) as NE.
  destruct R as (i & -> & Hi & E).
  assert (A : arr_at l i = JObj o) by (apply arr_at_obj; auto).
  unfold getEmitData. rewrite NE, A. reflexivity.
Qed.

Lemma getEmitData_bad (l : list JsVal) (idx : option Z) (str : string) :
  (forall o, ~ refers_to l idx o) ->
  getEmitData l idx str =
    {| output := JStr EmptyString;
       emit_validity :=
         {| ev_valid := false;
            ev_badInput :=
              String.eqb (trim str) EmptyString || (arr_length l =? 0);
            ev_valueMissing := true |};
       empty := (arr_length l =? 0); rawOutput := None; bad := true |}.
Proof.
  intros N. unfold getEmitData.
  destruct idx as [i|]; [|reflexivity].
  destruct (arr_length l =? 0) eqn:E; [reflexivity|].
  destruct (isObj (arr_at l i)) eqn:O; [|reflexivity].
  exfalso. apply isObj_inv in O as [o Ho].
  apply (N o). exists i. apply arr_at_obj in Ho. tauto.
Qed.

(** C6. The data of a change emission: when the index is that of an
    object of the list, the validity is [{valid: true, badInput: false,
    valueMissing: false}] and the value is the [value] of that option;
    otherwise [valid] is false, [valueMissing] is true, and [badInput] is
    true exactly when the trimmed text is empty or the list is empty. *)
Theorem getEmitData_validity (l : list JsVal) (idx : option Z)
    (str : string) :
  (forall o, refers_to l idx o ->
     emit_validity (getEmitData l idx str) = all_valid
     /\ output (getEmitData l idx str) = obj_get "value" o)
  /\ ((forall o, ~ refers_to l idx o) ->
      ev_valid (emit_validity (getEmitData l idx str)) = false
      /\ ev_valueMissing (emit_validity (getEmitData l idx str)) = true
      /\ (ev_badInput (emit_validity (getEmitData l idx str)) = true
          <-> trim str = EmptyString \/ l = [])).
Proof.
  split.
  - intros o R. rewrite (getEmitData_valid _ _ str _ R). auto.
  - intros N. rewrite (getEmitData_bad _ _ str N). cbn.
    repeat split; auto.
    + intros H. apply orb_true_iff in H as [H|H].
      * left. now apply String.eqb_eq.
      * right. now apply arr_length_0.
    + intros [H|H]; apply orb_true_iff.
      * left. now apply String.eqb_eq.
      * right. now apply arr_length_0.
Qed.

(** The second state of the page is chosen by index 1; index 9 and no
    index choose nothing, and the text "  " is blank. *)
Lemma getEmitData_validity_witness :
  (emit_validity (getEmitData Demo.auStates (Some 1) "n") = all_valid
   /\ output (getEmitData Demo.auStates (Some 1) "n") = JStr "NSW")
  /\ (ev_valid (emit_validity (getEmitData Demo.auStates (Some 9) "  "))
      = false
      /\ ev_valueMissing
           (emit_validity (getEmitData Demo.auStates (Some 9) "  ")) = true
      /\ ev_badInput
           (emit_validity (getEmitData Demo.auStates (Some 9) "  ")) = true).
Proof.
  split.
  - apply (proj1 (getEmitData_validity Demo.auStates (Some 1) "n")
             [("value", JStr "NSW"); ("label", JStr "New South Wales")]).
    exists 1. split; [reflexivity | split; [lia | reflexivity]].
  - destruct (proj2 (getEmitData_validity Demo.auStates (Some 9) "  "))
      as (V & M & B).
    + intros o (i & E & _ & N). injection E as <-. discriminate N.
    + split; [exact V | split; [exact M |]].
      apply B. left. reflexivity.
Defined.

(** ** The default secondary filter *)

Lemma typeof_truthy (v : JsVal) : truthy (JStr (typeof v)) = true.
Proof. destruct v; reflexivity. Qed.

Lemma toLocaleLowerCase_empty (s : string) :
  toLocaleLowerCase s = EmptyString <-> s = EmptyString.
Proof. destruct s; cbn; split; congruence. Qed.

(** The test accepts every option whose [value] is a string, whatever
    the query: [typeof item.label] is never the empty string. *)
Lemma defaultFilter_test_always (val : string) (o : Obj) (v : string) :
  obj_get "value" o = JStr v ->
  defaultFilter_test val (JObj o) = Ok true.
Proof.
  intros E. unfold defaultFilter_test, get_prop, rbind. rewrite E.
  destruct (includes (toLocaleLowerCase v) val); [reflexivity|].
  now rewrite typeof_truthy.
Qed.

Lemma filterM_all (f : JsVal -> result bool) (l : list JsVal) :
  Forall (fun x => f x = Ok true) l -> filterM f l = Ok l.
Proof.
  induction 1 as [|x l Hx _ IH]; cbn; [reflexivity|].
  now rewrite Hx, IH.
Qed.

(** On options with a string for [value], a query that is not blank
    filters nothing out. *)
Lemma defaultFilter_returns_all (optionList options : list JsVal)
    (query : string) :
  optionList <> [] ->
  trim query <> EmptyString ->
  Forall (fun item => exists o v, item = JObj o
                                  /\ obj_get "value" o = JStr v) optionList ->
  defaultFilter optionList (JStr query) options = Ok optionList.
Proof.
  intros NE NB All. unfold defaultFilter.
  assert (L : (arr_length optionList >? 0) = true).
  { destruct optionList; [congruence|]. rewrite arr_length_cons.
    pose proof (arr_length_nonneg optionList). apply Z.gtb_lt. lia. }
  rewrite L.
  assert (B : String.eqb (toLocaleLowerCase (trim query)) EmptyString = false).
  { apply String.eqb_neq. now rewrite toLocaleLowerCase_empty. }
  rewrite B. cbn. apply filterM_all.
  eapply Forall_impl; [|exact All].
  intros item (o & v & -> & E). eapply defaultFilter_test_always; eauto.
Qed.

(** X5. On an empty list, or with a blank query, the default secondary
    filter gives back the current options unchanged. *)
Lemma defaultFilter_blank (optionList options : list JsVal)
    (query : string) :
  optionList = [] \/ trim query = EmptyString ->
  defaultFilter optionList (JStr query) options = Ok options.
Proof.
  intros [-> | B]; unfold defaultFilter; [reflexivity|].
  rewrite B. cbn. now destruct (arr_length optionList >? 0).
Qed.

(** C5. The default secondary filter on the query "qld" keeps New South
    Wales, whose value and label do not contain it: the filter as the
    specification words it keeps Queensland alone. *)
Theorem defaultFilter_keeps_unmatched :
  defaultFilter
    [Demo.state "Qld" "Queensland"; Demo.state "NSW" "New South Wales"]
    (JStr "qld") []
  = Ok [Demo.state "Qld" "Queensland"; Demo.state "NSW" "New South Wales"]
  /\ defaultFilter_spec
       [Demo.state "Qld" "Queensland"; Demo.state "NSW" "New South Wales"]
       "qld" []
     = [Demo.state "Qld" "Queensland"]
  /\ contains_query "qld" (Demo.state "NSW" "New South Wales") = false.
Proof. repeat split. Qed.

(** ** The option normaliser *)

Lemma getOptionItem_text (host : Host.t) (func : JsVal -> result JsVal)
    (item : JsVal) :
  isStrNum item = true ->
  getOptionItem host func item
  = Ok (JObj (option_with_default (nullStr (Host.nullStr_other host) item))).
Proof. intros S. unfold getOptionItem. now rewrite S. Qed.

(** C8, as the code has it. For a string or a number the normaliser
    gives [{value: str(item), label: str(item), default: str(item),
    icon: ''}], with a [default] besides the three fields; for an item
    that is neither a string, a number nor an object it throws an error
    whose message ends with the [typeof] of the item. *)
Theorem getOptionItem_primitive_or_unsupported (host : Host.t)
    (func : JsVal -> result JsVal) (item : JsVal) :
  (forall s, item = JStr s ->
     getOptionItem host func item = Ok (JObj (option_with_default s)))
  /\ (forall r, item = JNum r ->
        getOptionItem host func item = Ok (JObj (option_with_default r)))
  /\ (unsupported item ->
        getOptionItem host func item
        = Throw (Error ("getOptionItem()  expects each item to be a string, "
                        ++ "number or object. Received " ++ typeof item))).
Proof.
  repeat split.
  - intros s ->. reflexivity.
  - intros r ->. reflexivity.
  - intros U. destruct item; try contradiction; reflexivity.
Qed.

(** A string, a number and a boolean through the normaliser of the
    page. *)
Lemma getOptionItem_primitive_or_unsupported_witness :
  getOptionItem Demo.host (Host.normaliseSingleOption Demo.host) (JStr "NSW")
  = Ok (JObj (option_with_default "NSW"))
  /\ getOptionItem Demo.host (Host.normaliseSingleOption Demo.host)
       (JNum "42")
     = Ok (JObj (option_with_default "42"))
  /\ getOptionItem Demo.host (Host.normaliseSingleOption Demo.host)
       (JBool true)
     = Throw (Error ("getOptionItem()  expects each item to be a string, "
                     ++ "number or object. Received boolean")).
Proof.
  split; [|split].
  - apply (proj1 (getOptionItem_primitive_or_unsupported Demo.host
                    (Host.normaliseSingleOption Demo.host) (JStr "NSW"))).
    reflexivity.
  - apply (proj1 (proj2 (getOptionItem_primitive_or_unsupported Demo.host
                           (Host.normaliseSingleOption Demo.host)
                           (JNum "42")))).
    reflexivity.
  - apply (proj2 (proj2 (getOptionItem_primitive_or_unsupported Demo.host
                           (Host.normaliseSingleOption Demo.host)
                           (JBool true)))).
    exact I.
Defined.

(** C8, as stated, fails on the string "NSW": the record built has four
    fields, among them [default], which the record of the claim lacks. *)
Lemma getOptionItem_has_default :
  exists r,
    getOptionItem Demo.host (Host.normaliseSingleOption Demo.host)
      (JStr "NSW") = Ok (JObj r)
    /\ obj_get "default" r = JStr "NSW"
    /\ obj_get "default" (option_of_text "NSW") = JUndefined
    /\ List.length r = 4%nat
    /\ List.length (option_of_text "NSW") = 3%nat.
Proof. eexists. repeat split. Qed.

(** ** The methods, one branch at a time *)

(** [emitChange] never throws; it writes [activeID], [activeVal] and,
    when it closes the list, the text of the input, and appends its
    emissions to the effects. *)
Lemma emitChange_run (host : Host.t) (o : list JsVal) (i : option Z)
    (s : string) (c : bool) (st : State) :
  exists st',
    emitChange host o i s c st = (st', Ok tt)
    /\ effects st'
       = (effects st ++ (if c then [InputFocus] else [])
          ++ emitted host o i s)%list
    /\ inputValue st'
       = (if c
          then match rawOutput (getEmitData o i s) with
               | None => JStr EmptyString
               | Some r => obj_get "label" r
               end
          else inputValue st)
    /\ selectedIndex st' = selectedIndex st
    /\ maxIndex st' = maxIndex st
    /\ options st' = options st
    /\ rawOptions st' = rawOptions st
    /\ fetching st' = fetching st
    /\ retry st' = retry st
    /\ filterStr st' = filterStr st
    /\ showList st' = showList st.
Proof.
  unfold emitChange, emitted.
  destruct c, (Props.required (Host.props host)); run;
    eexists; (split; [reflexivity|]); cbn -[getEmitData];
    rewrite <- ?app_assoc; repeat split; reflexivity.
Qed.

(** [setOptions] on a list that normalises and is not empty. *)
Lemma setOptions_sync (host : Host.t) (items raw : list JsVal) (st : State) :
  getRawOptions host items = Ok raw ->
  items <> [] ->
  exists st',
    setOptions host items st = (st', Ok tt)
    /\ maxIndex st' = arr_length items - 1
    /\ rawOptions st' = raw /\ options st' = raw
    /\ fetching st' = fetching st /\ retry st' = retry st
    /\ showList st' = showList st /\ filterStr st' = filterStr st
    /\ if (arr_length items =? 1) && Props.autoSelect (Host.props host)
       then selectedIndex st' = Some 0
            /\ effects st'
               = (effects st ++ emitted host raw (Some 0) (filterStr st))%list
       else selectedIndex st' = selectedIndex st
            /\ effects st' = effects st.
Proof.
  intros R NE. unfold setOptions. run. rewrite R. run.
  assert (L : (arr_length items - 1 <? 0) = false).
  { apply Z.ltb_ge. destruct items; [congruence|].
    rewrite arr_length_cons. pose proof (arr_length_nonneg items). lia. }
  rewrite L.
  destruct ((arr_length items =? 1) && Props.autoSelect (Host.props host))
    eqn:A; run.
  - match goal with
    | |- context [emitChange host ?o ?i ?s false ?st0] =>
        destruct (emitChange_run host o i s false st0) as (st' & E & H)
    end.
    rewrite E. exists st'. cbn in H. intuition.
  - eexists. split; [reflexivity|]. cbn. intuition.
Qed.

(** [getOptionList] while the filter is being waited for: the else
    branch. *)
Lemma getOptionList_debounced (host : Host.t) (str : string) (now : Z)
    (st : State) :
  fetching st = true -> now <= retry st ->
  getOptionList host str now st =
    match bouncingFilter host (rawOptions st) (JStr str) (options st) with
    | Ok l => (set_options l st, Ok tt)
    | Throw e => (st, Throw e)
    end.
Proof.
  intros F R. unfold getOptionList. run.
  rewrite F. apply Z.ltb_ge in R. rewrite R. cbn -[bouncingFilter].
  destruct (bouncingFilter host (rawOptions st) (JStr str) (options st));
    reflexivity.
Qed.

(** [getOptionList] when nothing is being waited for, or the deadline has
    passed: the first branch. *)
Lemma getOptionList_invokes (host : Host.t) (str : string) (now : Z)
    (st : State) :
  fetching st = false \/ retry st < now ->
  getOptionList host str now st =
    match Props.filter (Host.props host) str with
    | JArr items => setOptions host items (filter_called str st)
    | JPromise pid =>
        (log (PromiseThenCatch pid)
           (log (SetTimeout ResetDebounce
                   (Props.debounceTime (Host.props host)))
              (set_retry (now + Props.debounceTime (Host.props host))
                 (set_fetching true (filter_called str st)))), Ok tt)
    | tmp =>
        (filter_called str st,
         Throw (Error (getOptionList_badFilter host tmp)))
    end.
Proof.
  intros C. unfold getOptionList. run.
  assert (E : negb (fetching st) || (retry st <? now) = true).
  { destruct C as [-> | C]; [reflexivity|].
    apply Z.ltb_lt in C. rewrite C. apply orb_true_r. }
  rewrite E. run.
  destruct (Props.filter (Host.props host) str); reflexivity.
Qed.

(** [setOptions] only adds to the effects, also when it throws. *)
Lemma setOptions_effects (host : Host.t) (items : list JsVal) (st : State) :
  exists rest,
    effects (fst (setOptions host items st)) = (effects st ++ rest)%list.
Proof.
  unfold setOptions. run.
  destruct (getRawOptions host items) as [raw|e]; run.
  - destruct ((arr_length items =? 1) && Props.autoSelect (Host.props host)),
      (arr_length items - 1 <? 0); run;
      try (exists []; now rewrite app_nil_r);
      match goal with
      | |- context [emitChange host ?o ?i ?s false ?st0] =>
          destruct (emitChange_run host o i s false st0) as (st' & E & H & _)
      end; rewrite E; cbn; rewrite H; cbn; eauto.
  - exists []. now rewrite app_nil_r.
Qed.

(** When nothing is being waited for, or the deadline has passed, the
    first effect of a query is the call of the filter of the host. *)
Lemma getOptionList_calls_filter (host : Host.t) (str : string) (now : Z)
    (st : State) :
  fetching st = false \/ retry st < now ->
  exists rest,
    effects (fst (getOptionList host str now st))
    = (effects st ++ FilterCall str :: rest)%list.
Proof.
  intros C. rewrite (getOptionList_invokes host str now st C).
  destruct (Props.filter (Host.props host) str);
    try (exists []; reflexivity).
  - destruct (setOptions_effects host items (filter_called str st))
      as (rest & E).
    exists rest. rewrite E. cbn. now rewrite <- app_assoc.
  - eexists. cbn. rewrite <- !app_assoc. reflexivity.
Qed.

(** ** C1: a synchronous result of the filter *)




(** ** C3, C9: a query while the filter is being waited for *)

(** C3. While [fetching] is true and the time is before the deadline, a
    query has no effect outside the refs, so the filter of the host is
    not called; the options become what the secondary filter gives for
    the cached full list, the query and the options shown. (When the
    secondary filter throws, the options stay and the exception leaves
    the method.) *)
Theorem debounced_query_skips_filter (host : Host.t) (st : State)
    (str : string) (now : Z) :
  fetching st = true ->
  now < retry st ->
  effects (fst (getOptionList host str now st)) = effects st
  /\ match bouncingFilter host (rawOptions st) (JStr str) (options st) with
     | Ok l =>
         options (fst (getOptionList host str now st)) = l
         /\ snd (getOptionList host str now st) = Ok tt
     | Throw e =>
         options (fst (getOptionList host str now st)) = options st
         /\ snd (getOptionList host str now st) = Throw e
     end.
Proof.
  intros F R.
  rewrite (getOptionList_debounced host str now st F (Z.lt_le_incl _ _ R)).
  destruct (bouncingFilter host (rawOptions st) (JStr str) (options st));
    cbn; auto.
Qed.

(** The remote host waits since 2000 for the states of "N"; at 2100 the
    query "NT" calls nothing and shows the Northern Territory. *)
Lemma debounced_query_skips_filter_witness :
  effects
    (fst (getOptionList Demo.remoteHost "NT" 2100 Demo.remote_waiting))
  = effects Demo.remote_waiting
  /\ options
       (fst (getOptionList Demo.remoteHost "NT" 2100 Demo.remote_waiting))
     = [JObj (obj_set "icon" (JStr EmptyString)
                [("value", JStr "NT"); ("label", JStr "Northern Territory")])]
  /\ snd (getOptionList Demo.remoteHost "NT" 2100 Demo.remote_waiting)
     = Ok tt.
Proof.
  apply (debounced_query_skips_filter Demo.remoteHost Demo.remote_waiting
           "NT" 2100).
  - reflexivity.
  - vm_compute. reflexivity.
Defined.

(** C9. A query in the debounce window writes [options] and nothing
    else: [rawOptions], [maxIndex], [selectedIndex], [fetching] and
    [retry] are as before. [maxIndex] can then be larger than the last
    index of the list shown: the remote host shows one state with
    [maxIndex] at 6. *)
Theorem debounced_query_frame (host : Host.t) (st : State) (str : string)
    (now : Z) :
  fetching st = true ->
  now <= retry st ->
  (fst (getOptionList host str now st)
   = set_options (options (fst (getOptionList host str now st))) st
   /\ rawOptions (fst (getOptionList host str now st)) = rawOptions st
   /\ maxIndex (fst (getOptionList host str now st)) = maxIndex st
   /\ selectedIndex (fst (getOptionList host str now st)) = selectedIndex st
   /\ fetching (fst (getOptionList host str now st)) = fetching st
   /\ retry (fst (getOptionList host str now st)) = retry st)
  /\ (fetching Demo.remote_waiting = true
      /\ 2100 <= retry Demo.remote_waiting
      /\ arr_length
           (options
              (fst (getOptionList Demo.remoteHost "NT" 2100
                      Demo.remote_waiting))) = 1
      /\ maxIndex
           (fst (getOptionList Demo.remoteHost "NT" 2100
                   Demo.remote_waiting)) = 6).
Proof.
  intros F R. split.
  - rewrite (getOptionList_debounced host str now st F R).
    destruct (bouncingFilter host (rawOptions st) (JStr str) (options st));
      cbn; repeat split.
    now destruct st.
  - repeat split. vm_compute. discriminate.
Qed.

(** The same query of the remote host, at the deadline itself. *)
Lemma debounced_query_frame_witness :
  rawOptions
    (fst (getOptionList Demo.remoteHost "NT" 2500 Demo.remote_waiting))
  = rawOptions Demo.remote_waiting
  /\ maxIndex
       (fst (getOptionList Demo.remoteHost "NT" 2500 Demo.remote_waiting))
     = 6
  /\ selectedIndex
       (fst (getOptionList Demo.remoteHost "NT" 2500 Demo.remote_waiting))
     = None.
Proof.
  destruct (debounced_query_frame Demo.remoteHost Demo.remote_waiting
              "NT" 2500) as [(_ & Raw & Max & Sel & _) _].
  - reflexivity.
  - vm_compute. discriminate.
  - split; [exact Raw|]. split; [rewrite Max | rewrite Sel]; reflexivity.
Defined.

(** ** C4: the timer of the debounce *)

(** C4, as the code has it. When the filter gives a promise, a timer is
    set for [debounceTime] milliseconds with [resetDebounce]; in whatever
    state the component is when it fires (the promise fulfilled, rejected
    or pending), the timer sets the deadline [retry] to 0 and leaves
    [fetching] and every other ref as they are; the next query, at any
    time after 0, calls the filter of the host. *)
Theorem debounce_timer_clears_deadline (host : Host.t) (st : State)
    (str : string) (now : Z) (pid : nat) :
  fetching st = false \/ retry st < now ->
  Props.filter (Host.props host) str = JPromise pid ->
  (effects (fst (getOptionList host str now st))
   = (effects st
      ++ [FilterCall str;
          SetTimeout ResetDebounce (Props.debounceTime (Host.props host));
          PromiseThenCatch pid])%list
   /\ fetching (fst (getOptionList host str now st)) = true
   /\ retry (fst (getOptionList host str now st))
      = now + Props.debounceTime (Host.props host))
  /\ (forall later : State,
        timerFired ResetDebounce later = (set_retry 0 later, Ok tt)
        /\ fetching (fst (timerFired ResetDebounce later)) = fetching later
        /\ retry (fst (timerFired ResetDebounce later)) = 0
        /\ forall (str' : string) (now' : Z),
             0 < now' ->
             exists rest,
               effects
                 (fst (getOptionList host str' now'
                         (fst (timerFired ResetDebounce later))))
               = (effects later ++ FilterCall str' :: rest)%list).
Proof.
  intros C F. split.
  - rewrite (getOptionList_invokes host str now st C), F. cbn.
    rewrite <- !app_assoc. auto.
  - intros later. repeat split.
    intros str' now' P.
    apply (getOptionList_calls_filter host str' now' (set_retry 0 later)).
    right. exact P.
Qed.

(** The remote host at 2000, asked for "N" after the seven states came
    at once: the timer is set for 500 ms; fired while the promise is
    pending, it leaves a state from which "NT" at 2600 calls the filter. *)
Lemma debounce_timer_clears_deadline_witness :
  retry
    (fst (getOptionList Demo.remoteHost "N" 2000
            (after Demo.remoteHost (initial Demo.remoteHost)
               [InputKeyUp (Demo.keyup "Backspace" false EmptyString None)
                  1000]))) = 2500
  /\ exists rest,
       effects
         (fst (getOptionList Demo.remoteHost "NT" 2600
                 (fst (timerFired ResetDebounce Demo.remote_waiting))))
       = (effects Demo.remote_waiting ++ FilterCall "NT" :: rest)%list.
Proof.
  destruct (debounce_timer_clears_deadline Demo.remoteHost
              (after Demo.remoteHost (initial Demo.remoteHost)
                 [InputKeyUp (Demo.keyup "Backspace" false EmptyString None)
                    1000])
              "N" 2000 0%nat) as [(_ & _ & R) L].
  - left. reflexivity.
  - reflexivity.
  - split; [exact R|].
    destruct (L Demo.remote_waiting) as (_ & _ & _ & Next).
    apply (Next "NT" 2600). reflexivity.
Defined.

(** C4, as stated, fails on the remote host: the timer set for the
    promise of "N" fires while [fetching] is true, and [fetching] is
    true afterwards; what it clears is [retry]. *)
Lemma debounce_timer_leaves_fetching :
  In (SetTimeout ResetDebounce 500) (effects Demo.remote_waiting)
  /\ fetching Demo.remote_waiting = true
  /\ fetching (fst (timerFired ResetDebounce Demo.remote_waiting)) = true
  /\ retry Demo.remote_waiting = 2500
  /\ retry (fst (timerFired ResetDebounce Demo.remote_waiting)) = 0.
Proof.
  repeat split. vm_compute. right. right. left. reflexivity.
Qed.

(** ** C2, C7: navigation by the keyboard *)

Lemma increment_run (host : Host.t) (step : Z) (st : State) :
  maxIndex st > -1 ->
  increment host step st
  = emitChange host (options st) (Some (incremented host step st))
      (filterStr st) false
      (set_selectedIndex (Some (incremented host step st)) st).
Proof.
  intros H. apply Z.gtb_gt in H. unfold increment, incremented. run.
  rewrite H.
  destruct (selectedIndex st) as [sel|]; [|reflexivity].
  destruct (sel + step <=? maxIndex st); [reflexivity|].
  destruct (Props.loop (Host.props host)); reflexivity.
Qed.

Lemma decrement_run (host : Host.t) (step : Z) (st : State) :
  maxIndex st > -1 ->
  decrement host step st
  = emitChange host (options st) (Some (decremented host step st))
      (filterStr st) false
      (set_selectedIndex (Some (decremented host step st)) st).
Proof.
  intros H. apply Z.gtb_gt in H. unfold decrement, decremented. run.
  rewrite H.
  destruct (selectedIndex st) as [sel|]; [|reflexivity].
  destruct (sel - step >=? 0); [reflexivity|].
  destruct (Props.loop (Host.props host)); reflexivity.
Qed.

(** What a navigation leaves: the selection moved, [maxIndex] kept, and
    one change emitted. *)
Lemma nav_run (host : Host.t) (n : Nav) (st : State) :
  maxIndex st > -1 ->
  selectedIndex (fst (nav host n st))
  = Some match n with
         | Inc s => incremented host s st
         | Dec s => decremented host s st
         end
  /\ maxIndex (fst (nav host n st)) = maxIndex st
  /\ exists ev rest,
       effects (fst (nav host n st))
       = (effects st ++ EmitChange ev :: rest)%list.
Proof.
  intros H. destruct n as [s|s]; cbn [nav].
  - rewrite (increment_run host s st H).
    destruct (emitChange_run host (options st)
                (Some (incremented host s st)) (filterStr st) false
                (set_selectedIndex (Some (incremented host s st)) st))
      as (st' & E & Eff & _ & Sel & Max & _).
    rewrite E. cbn [fst]. rewrite Sel, Max, Eff. cbn.
    repeat split. unfold emitted. eauto.
  - rewrite (decrement_run host s st H).
    destruct (emitChange_run host (options st)
                (Some (decremented host s st)) (filterStr st) false
                (set_selectedIndex (Some (decremented host s st)) st))
      as (st' & E & Eff & _ & Sel & Max & _).
    rewrite E. cbn [fst]. rewrite Sel, Max, Eff. cbn.
    repeat split. unfold emitted. eauto.
Qed.

(** Without [loop], a navigation from an index of the list ends on an
    index of the list. *)
Lemma nav_in_range (host : Host.t) (n : Nav) (st : State) :
  Props.loop (Host.props host) = false ->
  0 < nav_step n ->
  in_range st ->
  in_range (fst (nav host n st))
  /\ maxIndex (fst (nav host n st)) = maxIndex st.
Proof.
  intros L P R. unfold in_range in *.
  destruct (selectedIndex st) as [sel|] eqn:S; [|contradiction].
  assert (H : maxIndex st > -1) by lia.
  destruct (nav_run host n st H) as (Sel & Max & _).
  rewrite Sel, Max. split; [|reflexivity].
  destruct n as [s|s]; unfold incremented, decremented; rewrite S, L;
    cbn in P.
  - destruct (Z.leb_spec (sel + s) (maxIndex st)); lia.
  - destruct (Z.geb_spec (sel - s) 0); lia.
Qed.

(** X1. Without [loop], every sequence of [increment] and [decrement]
    by positive steps that starts on an index of the list ends on an
    index of the list, and leaves [maxIndex] as it was. *)
Lemma navs_in_range (host : Host.t) (l : list Nav) (st : State) :
  Props.loop (Host.props host) = false ->
  Forall (fun n => 0 < nav_step n) l ->
  in_range st ->
  in_range (navs host l st) /\ maxIndex (navs host l st) = maxIndex st.
Proof.
  intros L P. revert st. induction P as [|n l Pn _ IH]; intros st R.
  - auto.
  - change (navs host (n :: l) st) with (navs host l (fst (nav host n st))).
    destruct (nav_in_range host n st L Pn R) as [R1 M1].
    destruct (IH _ R1) as [R2 M2]. split; [exact R2 | congruence].
Qed.

(** X7. Without [loop], from an index of the list, [increment] past the
    last option stops at [maxIndex] and [decrement] past the first stops
    at 0. *)
Lemma nav_saturates (host : Host.t) (s sel : Z) (st : State) :
  Props.loop (Host.props host) = false ->
  selectedIndex st = Some sel ->
  0 <= sel <= maxIndex st ->
  (maxIndex st < sel + s ->
   selectedIndex (fst (increment host s st)) = Some (maxIndex st))
  /\ (sel - s < 0 -> selectedIndex (fst (decrement host s st)) = Some 0).
Proof.
  intros L S R. assert (H : maxIndex st > -1) by lia. split; intros B.
  - destruct (nav_run host (Inc s) st H) as (Sel & _). cbn [nav] in Sel.
    rewrite Sel. unfold incremented. rewrite S, L.
    destruct (Z.leb_spec (sel + s) (maxIndex st)); [lia | reflexivity].
  - destruct (nav_run host (Dec s) st H) as (Sel & _). cbn [nav] in Sel.
    rewrite Sel. unfold decremented. rewrite S, L.
    destruct (Z.geb_spec (sel - s) 0); [lia | reflexivity].
Qed.

(** X8. From no selection, [increment(step)] goes to [step - 1],
    whatever the length of the list, and [decrement(step)] goes to
    [maxIndex]. *)
Lemma nav_from_none (host : Host.t) (s : Z) (st : State) :
  maxIndex st > -1 ->
  selectedIndex st = None ->
  selectedIndex (fst (increment host s st)) = Some (s - 1)
  /\ selectedIndex (fst (decrement host s st)) = Some (maxIndex st).
Proof.
  intros H S. split.
  - destruct (nav_run host (Inc s) st H) as (Sel & _).
    cbn [nav] in Sel. rewrite Sel. unfold incremented. rewrite S.
    f_equal. lia.
  - destruct (nav_run host (Dec s) st H) as (Sel & _).
    cbn [nav] in Sel. rewrite Sel. unfold decremented. now rewrite S.
Qed.

(** On the page after "ns": ArrowDown selects the first state, ArrowUp
    the last. *)
Lemma nav_from_none_witness :
  selectedIndex (fst (increment Demo.host 1 Demo.typed_ns)) = Some 0
  /\ selectedIndex (fst (decrement Demo.host 1 Demo.typed_ns)) = Some 1.
Proof.
  apply (nav_from_none Demo.host 1 Demo.typed_ns).
  - reflexivity.
  - reflexivity.
Defined.

(** C2. On the page, without [loop], "ns" offers two states ([maxIndex]
    is 1) and selects none; PageDown, which is [increment(10)], puts the
    selection at 9, outside the list, and the change emitted for it is
    not valid. *)
Theorem pageDown_from_none_overshoots :
  Props.loop Demo.props = false
  /\ selectedIndex Demo.typed_ns = None
  /\ maxIndex Demo.typed_ns = 1
  /\ selectedIndex (fst (increment Demo.host 10 Demo.typed_ns)) = Some 9
  /\ selectedIndex
       (after Demo.host Demo.typed_ns
          [InputKeyUp (Demo.keyup "PageDown" false "ns" None) 2000])
     = Some 9
  /\ emitted Demo.host (options Demo.typed_ns) (Some 9) "ns"
     = [EmitChange
          (getFauxInputEvent (JStr EmptyString) JNull
             {| ev_valid := false; ev_badInput := false;
                ev_valueMissing := true |})].
Proof. repeat split. Qed.

(** The keys, one by one, when there are options. *)
Lemma handleKeyboardNav_keys (host : Host.t) (ctrl : bool)
    (event : KeyEvent) (st : State) :
  maxIndex st > -1 ->
  handleKeyboardNav host "ArrowDown" ctrl event st
  = increment host (if ctrl then 5 else 1) st
  /\ handleKeyboardNav host "ArrowUp" ctrl event st
     = decrement host (if ctrl then 5 else 1) st
  /\ handleKeyboardNav host "PageDown" ctrl event st = increment host 10 st
  /\ handleKeyboardNav host "PageUp" ctrl event st = decrement host 10 st
  /\ handleKeyboardNav host "Home" ctrl event st
     = (set_selectedIndex (Some 0) st, Ok tt)
  /\ handleKeyboardNav host "End" ctrl event st
     = (set_selectedIndex (Some (maxIndex st)) st, Ok tt).
Proof.
  intros H. apply Z.gtb_gt in H.
  unfold handleKeyboardNav, bind, get, when. cbn -[increment decrement].
  rewrite H. repeat split.
Qed.

(** The arrows and the page keys emit a change. *)
Lemma arrows_emit (host : Host.t) (k : string) (ctrl : bool)
    (event : KeyEvent) (st : State) :
  maxIndex st > -1 ->
  In k ["ArrowDown"; "ArrowUp"; "PageDown"; "PageUp"] ->
  exists ev rest,
    effects (fst (handleKeyboardNav host k ctrl event st))
    = (effects st ++ EmitChange ev :: rest)%list.
Proof.
  intros H K.
  destruct (handleKeyboardNav_keys host ctrl event st H)
    as (D & U & PD & PU & _).
  destruct K as [<- | [<- | [<- | [<- | []]]]].
  - rewrite D. apply (nav_run host (Inc _) st H).
  - rewrite U. apply (nav_run host (Dec _) st H).
  - rewrite PD. apply (nav_run host (Inc _) st H).
  - rewrite PU. apply (nav_run host (Dec _) st H).
Qed.

(** Home and End write the selection and do nothing else: no effect, and
    [activeID] and [activeVal] stay those of the option left. *)
Lemma home_end_silent (host : Host.t) (ctrl : bool) (event : KeyEvent)
    (st : State) :
  maxIndex st > -1 ->
  effects (fst (handleKeyboardNav host "Home" ctrl event st)) = effects st
  /\ effects (fst (handleKeyboardNav host "End" ctrl event st)) = effects st
  /\ selectedIndex (fst (handleKeyboardNav host "Home" ctrl event st))
     = Some 0
  /\ selectedIndex (fst (handleKeyboardNav host "End" ctrl event st))
     = Some (maxIndex st).
Proof.
  intros H.
  destruct (handleKeyboardNav_keys host ctrl event st H)
    as (_ & _ & _ & _ & Home & End_).
  rewrite Home, End_. repeat split.
Qed.

(** C7. On the page, with the second of the two states for "ns" selected,
    Home moves the selection to 0 and End moves it back to 1, and neither
    emits a change: the effects are those before the key, and [activeID]
    still names item 1 after Home. ArrowUp from the same state, which
    makes the same move as Home, emits one. *)
Theorem home_end_emit_nothing :
  selectedIndex Demo.typed_ns_down2 = Some 1
  /\ maxIndex Demo.typed_ns_down2 = 1
  /\ selectedIndex
       (after Demo.host Demo.typed_ns_down2
          [InputKeyUp (Demo.keyup "Home" false "ns" (Some "Qld")) 3000])
     = Some 0
  /\ effects
       (after Demo.host Demo.typed_ns_down2
          [InputKeyUp (Demo.keyup "Home" false "ns" (Some "Qld")) 3000])
     = effects Demo.typed_ns_down2
  /\ activeID
       (after Demo.host Demo.typed_ns_down2
          [InputKeyUp (Demo.keyup "Home" false "ns" (Some "Qld")) 3000])
     = Some "item--combobox--1"
  /\ selectedIndex
       (after Demo.host Demo.typed_ns_down2
          [InputKeyUp (Demo.keyup "Home" false "ns" (Some "Qld")) 3000;
           InputKeyUp (Demo.keyup "End" false "ns" (Some "Qld")) 3100])
     = Some 1
  /\ effects
       (after Demo.host Demo.typed_ns_down2
          [InputKeyUp (Demo.keyup "Home" false "ns" (Some "Qld")) 3000;
           InputKeyUp (Demo.keyup "End" false "ns" (Some "Qld")) 3100])
     = effects Demo.typed_ns_down2
  /\ selectedIndex
       (after Demo.host Demo.typed_ns_down2
          [InputKeyUp (Demo.keyup "ArrowUp" false "ns" (Some "Qld")) 3000])
     = Some 0
  /\ List.length
       (List.filter is_change
          (effects
             (after Demo.host Demo.typed_ns_down2
                [InputKeyUp (Demo.keyup "ArrowUp" false "ns" (Some "Qld"))
                   3000])))
     = S (List.length (List.filter is_change (effects Demo.typed_ns_down2))).
Proof. vm_compute. repeat split. Qed.

(** ** C10: Enter *)

(** The loop of [handleEnter] passes over an option that has not the
    value sought. *)
Lemma findValue_skip (val : string) (x : JsVal) (l : list JsVal) (from : Z) :
  readable x ->
  ~ has_value val x ->
  findValue val (x :: l) from = findValue val l (from + 1).
Proof.
  intros R N. cbn [findValue].
  destruct x; try contradiction; try reflexivity.
  cbn. destruct (obj_get "value" fields) as [| | | |s| | | |] eqn:E;
    try reflexivity.
  destruct (String.eqb_spec s val) as [->|]; [|reflexivity].
  exfalso. apply N. exists fields. auto.
Qed.

Lemma findValue_none (val : string) (l : list JsVal) (from : Z) :
  Forall readable l ->
  (forall x, In x l -> ~ has_value val x) ->
  findValue val l from = Ok None.
Proof.
  intros R. revert from. induction R as [|x l Rx _ IH]; intros from N.
  - reflexivity.
  - rewrite (findValue_skip val x l from Rx (N x (or_introl eq_refl))).
    apply IH. intros y Hy. apply N. now right.
Qed.

Lemma findValue_first (val : string) (l : list JsVal) (i : nat) (o : Obj)
    (from : Z) :
  Forall readable l ->
  first_match val l i o ->
  findValue val l from = Ok (Some (from + Z.of_nat i)).
Proof.
  intros R. revert i from.
  induction R as [|x l Rx _ IH]; intros i from (Nth & V & Before).
  - destruct i; discriminate.
  - destruct i as [|i].
    + injection Nth as ->. cbn. rewrite V, String.eqb_refl.
      do 2 f_equal. lia.
    + rewrite (findValue_skip val x l from Rx
                 (Before 0%nat x (Nat.lt_0_succ i) eq_refl)).
      rewrite (IH i (from + 1)).
      * do 2 f_equal. lia.
      * split; [exact Nth|]. split; [exact V|].
        intros j y Hj Hy. apply (Before (S j) y); [lia | exact Hy].
Qed.

Lemma first_match_refers (val : string) (l : list JsVal) (i : nat)
    (o : Obj) :
  first_match val l i o -> refers_to l (Some (Z.of_nat i)) o.
Proof.
  intros (Nth & _). exists (Z.of_nat i).
  split; [reflexivity|]. split; [lia|]. now rewrite Nat2Z.id.
Qed.

(** C10. Enter, on cached options whose properties can all be read.
    When the [data-value] of the target is empty or the [value] of no
    cached option, the selection becomes none, the change emitted has
    [validity.valid] false, the text of the input is cleared and the list
    closes. When it is the [value] of a cached option, the selection
    becomes the first index with that value and the text of the input
    becomes the [label] of that option. *)
Theorem handleEnter_commit (host : Host.t) (event : KeyEvent) (st : State) :
  Forall readable (rawOptions st) ->
  ((dataValue event = EmptyString
    \/ (forall x, In x (rawOptions st) -> ~ has_value (dataValue event) x)) ->
   exists st' ev,
     handleEnter host event st = (st', Ok tt)
     /\ selectedIndex st' = None
     /\ effects st'
        = (effects st ++ [InputFocus; EmitChange ev]
           ++ (if Props.required (Host.props host)
               then [EmitInvalid true] else []))%list
     /\ valid (validity (target ev)) = false
     /\ inputValue st' = JStr EmptyString
     /\ showList st' = false)
  /\ (forall (i : nat) (o : Obj),
        dataValue event <> EmptyString ->
        first_match (dataValue event) (rawOptions st) i o ->
        exists st',
          handleEnter host event st = (st', Ok tt)
          /\ selectedIndex st' = Some (Z.of_nat i)
          /\ inputValue st' = obj_get "label" o
          /\ showList st' = false).
Proof.
  intros R. split.
  - intros Miss.
    assert (Sel : exists st0,
               st0 = set_selectedIndex None st
               /\ handleEnter host event st
                  = bind (emitChange host (rawOptions st) None (filterStr st)
                            true)
                      (fun _ => modify (set_showList false)) st0).
    { eexists. split; [reflexivity|]. unfold handleEnter. run.
      destruct (String.eqb_spec (dataValue event) EmptyString) as [E|NE].
      - reflexivity.
      - destruct Miss as [E|N]; [contradiction|]. cbn -[emitChange findValue].
        rewrite (findValue_none (dataValue event) (rawOptions st) 0 R N).
        reflexivity. }
    destruct Sel as (st0 & -> & ->).
    destruct (emitChange_run host (rawOptions st) None (filterStr st) true
                (set_selectedIndex None st))
      as (st' & E & Eff & Inp & Sel & _).
    unfold bind. rewrite E. run.
    eexists. eexists. split; [reflexivity|]. cbn.
    rewrite Sel, Eff, Inp. cbn. repeat split.
  - intros i o NE FM.
    pose proof (first_match_refers _ _ _ _ FM) as Ref.
    unfold handleEnter. run.
    destruct (String.eqb_spec (dataValue event) EmptyString) as [E|_];
      [contradiction|].
    cbn -[emitChange findValue].
    rewrite (findValue_first (dataValue event) (rawOptions st) i o 0 R FM).
    run.
    match goal with
    | |- context [emitChange host ?l ?idx ?s true ?st0] =>
        destruct (emitChange_run host l idx s true st0)
          as (st' & E & _ & Inp & Sel & _)
    end.
    rewrite E. eexists. split; [reflexivity|]. cbn.
    rewrite Sel, Inp, (getEmitData_valid _ _ (filterStr st) _ Ref).
    repeat split.
Qed.

(** On the page after "ns": Enter on the input without [data-value]
    clears it, and Enter with the [data-value] "Qld" selects index 1 and
    writes "Queensland". *)
Lemma handleEnter_commit_witness :
  (exists st' ev,
     handleEnter Demo.host (Demo.keyup "Enter" false "ns" None) Demo.typed_ns
     = (st', Ok tt)
     /\ selectedIndex st' = None
     /\ valid (validity (target ev)) = false
     /\ In (EmitChange ev) (effects st')
     /\ inputValue st' = JStr EmptyString
     /\ showList st' = false)
  /\ (exists st',
        handleEnter Demo.host (Demo.keyup "Enter" false "ns" (Some "Qld"))
          Demo.typed_ns
        = (st', Ok tt)
        /\ selectedIndex st' = Some 1
        /\ inputValue st' = JStr "Queensland").
Proof.
  assert (R : Forall readable (rawOptions Demo.typed_ns)).
  { vm_compute. repeat constructor. }
  split.
  - destruct (proj1 (handleEnter_commit Demo.host
                       (Demo.keyup "Enter" false "ns" None) Demo.typed_ns R))
      as (st' & ev & E & Sel & Eff & V & Inp & Show_).
    + left. reflexivity.
    + exists st', ev. split; [exact E|]. split; [exact Sel|].
      split; [exact V|]. split; [|split; [exact Inp | exact Show_]].
      rewrite Eff. apply in_or_app. right. apply in_or_app. left.
      right. left. reflexivity.
  - destruct (proj2 (handleEnter_commit Demo.host
                       (Demo.keyup "Enter" false "ns" (Some "Qld"))
                       Demo.typed_ns R)
                1%nat
                [("value", JStr "Qld"); ("label", JStr "Queensland");
                 ("icon", JStr EmptyString)])
      as (st' & E & Sel & Inp & _).
    + discriminate.
    + split; [vm_compute; reflexivity|]. split; [reflexivity|].
      intros j x Hj Hx (o & -> & V).
      destruct j as [|j]; [|inversion Hj as [|? Hj']; inversion Hj'].
      vm_compute in Hx. injection Hx as <-. discriminate V.
    + exists st'. split; [exact E|]. split; [exact Sel | exact Inp].
Defined.

(** ** The cached options can be read *)

Lemma getOptionItem_readable (host : Host.t) (func : JsVal -> result JsVal)
    (item v : JsVal) :
  getOptionItem host func item = Ok v -> readable v.
Proof.
  unfold getOptionItem.
  destruct (isStrNum item); [intros E; injection E as E; subst v; exact I|].
  destruct (isObj item); [|discriminate].
  destruct (func _) as [_item|e]; cbn; [|discriminate].
  destruct _item; cbn; try discriminate;
    repeat match goal with
           | |- context [match ?x with _ => _ end] => destruct x
           end; try discriminate;
    intros E; injection E as E; subst v; exact I.
Qed.

Lemma getRawOptions_readable (host : Host.t) (items raw : list JsVal) :
  getRawOptions host items = Ok raw -> Forall readable raw.
Proof.
  unfold getRawOptions. revert raw.
  induction items as [|x items IH]; cbn; intros raw E.
  - injection E as <-. constructor.
  - destruct (getOptionItem host (Host.normaliseSingleOption host) x)
      as [v|e] eqn:V; cbn in E; [|discriminate].
    destruct (mapM (getOptionItem host (Host.normaliseSingleOption host))
                items) as [r|e]; cbn in E; [|discriminate].
    injection E as <-. constructor; [|now apply IH].
    eapply getOptionItem_readable; eauto.
Qed.

Lemma emitChange_keeps (host : Host.t) (o : list JsVal) (i : option Z)
    (s : string) (c : bool) :
  keeps raw_ok (emitChange host o i s c).
Proof. unfold emitChange. repeat keeps_step. Qed.

Lemma setOptions_keeps (host : Host.t) (items : list JsVal) :
  keeps raw_ok (setOptions host items).
Proof.
  unfold setOptions. keeps_step.
  apply keeps_bind.
  { apply keeps_modify. intros st _.
    eapply getRawOptions_readable; eauto. }
  intros _. repeat keeps_step; apply emitChange_keeps.
Qed.

Lemma getOptionList_keeps (host : Host.t) (str : string) (now : Z) :
  keeps raw_ok (getOptionList host str now).
Proof.
  unfold getOptionList. keeps_step; [keeps_step|].
  destruct (negb (fetching a) || (retry a <? now)).
  - repeat keeps_step; apply setOptions_keeps.
  - repeat keeps_step.
Qed.

Lemma increment_keeps (host : Host.t) (s : Z) : keeps raw_ok (increment host s).
Proof.
  unfold increment. repeat keeps_step;
    repeat match goal with
           | |- keeps _ (if ?x then _ else _) => destruct x
           end; repeat keeps_step; apply emitChange_keeps.
Qed.

Lemma decrement_keeps (host : Host.t) (s : Z) : keeps raw_ok (decrement host s).
Proof.
  unfold decrement. repeat keeps_step;
    repeat match goal with
           | |- keeps _ (if ?x then _ else _) => destruct x
           end; repeat keeps_step; apply emitChange_keeps.
Qed.

Lemma handleEnter_keeps (host : Host.t) (event : KeyEvent) :
  keeps raw_ok (handleEnter host event).
Proof.
  unfold handleEnter. repeat keeps_step; apply emitChange_keeps.
Qed.

Lemma handleKeyboardNav_keeps (host : Host.t) (k : string) (ctrl : bool)
    (event : KeyEvent) :
  keeps raw_ok (handleKeyboardNav host k ctrl event).
Proof.
  unfold handleKeyboardNav. keeps_step; [keeps_step|]. keeps_step.
  repeat match goal with
         | |- keeps _ (if ?x then _ else _) => destruct x
         end;
    first [ apply increment_keeps | apply decrement_keeps
          | apply handleEnter_keeps
          | repeat keeps_step; apply emitChange_keeps ].
Qed.

Lemma step_keeps (host : Host.t) (i : Input) : keeps raw_ok (step host i).
Proof.
  destruct i as [event now | event | now | s | cb]; cbn [step].
  - unfold handleInputKeyUp. destruct (event_target event); [|keeps_step].
    destruct (isPrintableCharacter (key event)).
    + repeat keeps_step. apply getOptionList_keeps.
    + apply handleKeyboardNav_keeps.
  - apply handleKeyboardNav_keeps.
  - unfold handleInputFocus. repeat keeps_step. apply getOptionList_keeps.
  - destruct s as [response | error]; cbn [promiseSettled].
    + apply keeps_catch.
      * unfold setOptionsThen. destruct response; repeat keeps_step.
        apply setOptions_keeps.
      * intros e. unfold filterFailed. repeat keeps_step.
    + unfold filterFailed. repeat keeps_step.
  - destruct cb. unfold timerFired, resetDebounce. keeps_step.
Qed.

(** X6. In every state the component reaches, every cached option can be
    read: the hypothesis of [handleEnter_commit] holds there. *)
Lemma reachable_raw_ok (host : Host.t) (st : State) :
  reachable host st -> raw_ok st.
Proof.
  induction 1 as [|st i _ IH].
  - constructor.
  - apply (step_keeps host i st IH).
Qed.

(** ** Further properties of the specification *)

(** On the page, from the second of two states: down by 1, up by 5 and
    down by 10 end in the list. *)
Lemma navs_in_range_witness :
  in_range (navs Demo.host [Inc 1; Dec 5; Inc 10] Demo.typed_ns_down2)
  /\ maxIndex (navs Demo.host [Inc 1; Dec 5; Inc 10] Demo.typed_ns_down2)
     = maxIndex Demo.typed_ns_down2.
Proof.
  apply (navs_in_range Demo.host [Inc 1; Dec 5; Inc 10] Demo.typed_ns_down2).
  - reflexivity.
  - repeat constructor.
  - vm_compute. split; discriminate.
Defined.

(** X2. With [loop], a navigation from an index of the list that would
    pass the last option goes to 0, and one that would pass the first
    goes to [maxIndex]. *)
Lemma nav_wraps (host : Host.t) (s sel : Z) (st : State) :
  Props.loop (Host.props host) = true ->
  selectedIndex st = Some sel ->
  0 <= sel <= maxIndex st ->
  (maxIndex st < sel + s ->
   selectedIndex (fst (increment host s st)) = Some 0)
  /\ (sel - s < 0 ->
      selectedIndex (fst (decrement host s st)) = Some (maxIndex st)).
Proof.
  intros L S R. assert (H : maxIndex st > -1) by lia. split; intros B.
  - destruct (nav_run host (Inc s) st H) as (Sel & _). cbn [nav] in Sel.
    rewrite Sel. unfold incremented. rewrite S, L.
    destruct (Z.leb_spec (sel + s) (maxIndex st)); [lia | reflexivity].
  - destruct (nav_run host (Dec s) st H) as (Sel & _). cbn [nav] in Sel.
    rewrite Sel. unfold decremented. rewrite S, L.
    destruct (Z.geb_spec (sel - s) 0); [lia | reflexivity].
Qed.

(** The page with [loop]: from the second of two states, one step down
    goes to 0; from there, one step up goes back to 1. *)
Lemma nav_wraps_witness :
  selectedIndex (fst (increment Demo.loopHost 1 Demo.typed_ns_down2))
  = Some 0
  /\ selectedIndex
       (fst (decrement Demo.loopHost 1
               (fst (increment Demo.loopHost 1 Demo.typed_ns_down2))))
     = Some 1.
Proof.
  assert (R1 : 0 <= 1 <= maxIndex Demo.typed_ns_down2).
  { vm_compute. split; discriminate. }
  assert (R0 : 0 <= 0
               <= maxIndex
                    (fst (increment Demo.loopHost 1 Demo.typed_ns_down2))).
  { vm_compute. split; discriminate. }
  split.
  - apply (proj1 (nav_wraps Demo.loopHost 1 1 Demo.typed_ns_down2
                    eq_refl eq_refl R1)).
    reflexivity.
  - apply (proj2 (nav_wraps Demo.loopHost 1 0
                    (fst (increment Demo.loopHost 1 Demo.typed_ns_down2))
                    eq_refl eq_refl R0)).
    reflexivity.
Defined.

(** X3. Escape, while options are shown: the selection becomes none, the
    list closes, the text of the input is cleared and the change emitted
    has [validity.valid] false. *)
Lemma escape_resets (host : Host.t) (ctrl : bool) (event : KeyEvent)
    (st : State) :
  maxIndex st > -1 ->
  exists st' ev,
    handleKeyboardNav host "Escape" ctrl event st = (st', Ok tt)
    /\ selectedIndex st' = None
    /\ showList st' = false
    /\ inputValue st' = JStr EmptyString
    /\ effects st'
       = (effects st ++ [InputFocus; EmitChange ev]
          ++ (if Props.required (Host.props host)
              then [EmitInvalid true] else []))%list
    /\ valid (validity (target ev)) = false.
Proof.
  intros H. apply Z.gtb_gt in H.
  unfold handleKeyboardNav. run. rewrite H. run.
  match goal with
  | |- context [emitChange host ?o ?i ?s true ?st0] =>
      destruct (emitChange_run host o i s true st0)
        as (st' & E & Eff & Inp & Sel & _)
  end.
  rewrite E. eexists. eexists. split; [reflexivity|]. cbn.
  rewrite Sel, Eff, Inp. cbn. repeat split.
Qed.

(** Escape on the page with the second state for "ns" selected. *)
Lemma escape_resets_witness :
  exists st' ev,
    handleKeyboardNav Demo.host "Escape" false
      (Demo.keyup "Escape" false "ns" (Some "Qld")) Demo.typed_ns_down2
    = (st', Ok tt)
    /\ selectedIndex st' = None
    /\ showList st' = false
    /\ inputValue st' = JStr EmptyString
    /\ In (EmitChange ev) (effects st')
    /\ valid (validity (target ev)) = false.
Proof.
  destruct (escape_resets Demo.host false
              (Demo.keyup "Escape" false "ns" (Some "Qld"))
              Demo.typed_ns_down2)
    as (st' & ev & E & Sel & Show_ & Inp & Eff & V).
  - reflexivity.
  - exists st', ev. split; [exact E|]. split; [exact Sel|].
    split; [exact Show_|]. split; [exact Inp|]. split; [|exact V].
    rewrite Eff. apply in_or_app. right. apply in_or_app. left.
    right. left. reflexivity.
Defined.

Lemma getEmitData_empty (idx : option Z) (str : string) :
  getEmitData [] idx str
  = {| output := JStr EmptyString;
       emit_validity := {| ev_valid := false; ev_badInput := true;
                           ev_valueMissing := true |};
       empty := true; rawOutput := None; bad := true |}.
Proof.
  unfold getEmitData. change (arr_length (@nil JsVal)) with 0.
  destruct idx; cbn -[trim]; now rewrite orb_true_r.
Qed.

(** X4. When the filter gives the empty list at once, [maxIndex] becomes
    -1 and the change emitted has the validity [{valid: false,
    badInput: true, valueMissing: true}]. *)
Lemma empty_result_invalid (host : Host.t) (st : State) (str : string)
    (now : Z) :
  fetching st = false \/ retry st < now ->
  Props.filter (Host.props host) str = JArr [] ->
  exists st' ev,
    getOptionList host str now st = (st', Ok tt)
    /\ maxIndex st' = -1
    /\ options st' = []
    /\ effects st'
       = (effects st ++ [FilterCall str; EmitChange ev]
          ++ (if Props.required (Host.props host)
              then [EmitInvalid true] else []))%list
    /\ valid (validity (target ev)) = false
    /\ badInput (validity (target ev)) = true
    /\ valueMissing (validity (target ev)) = true.
Proof.
  intros C F. rewrite (getOptionList_invokes host str now st C), F.
  unfold setOptions.
  change (getRawOptions host []) with (Ok (@nil JsVal)).
  change (arr_length (@nil JsVal)) with 0. run.
  match goal with
  | |- context [emitChange host ?o ?i ?s false ?st0] =>
      destruct (emitChange_run host o i s false st0)
        as (st' & E & Eff & _ & _ & Max & Opt & _)
  end.
  rewrite E. eexists. eexists. split; [reflexivity|].
  rewrite Max, Opt, Eff. unfold emitted.
  rewrite (getEmitData_empty (selectedIndex st) (filterStr st)).
  cbn. rewrite <- app_assoc. repeat split.
Qed.

(** The remote host whose store is empty. *)
Lemma empty_result_invalid_witness :
  exists st' ev,
    getOptionList Demo.emptyHost "x" 1000 (initial Demo.emptyHost)
    = (st', Ok tt)
    /\ maxIndex st' = -1
    /\ effects st' = [FilterCall "x"; EmitChange ev; EmitInvalid true]
    /\ checkValidity (target ev) = false.
Proof.
  destruct (empty_result_invalid Demo.emptyHost (initial Demo.emptyHost)
              "x" 1000)
    as (st' & ev & E & Max & _ & Eff & V & _).
  - left. reflexivity.
  - reflexivity.
  - exists st', ev. split; [exact E|]. split; [exact Max|].
    split; [exact Eff|]. unfold checkValidity. rewrite V.
    cbn. now rewrite !orb_true_r.
Defined.

(** A query of spaces leaves the one option shown. *)
Lemma defaultFilter_blank_witness :
  defaultFilter Demo.auStates (JStr "   ")
    [Demo.state "Qld" "Queensland"]
  = Ok [Demo.state "Qld" "Queensland"].
Proof.
  apply (defaultFilter_blank Demo.auStates [Demo.state "Qld" "Queensland"]
           "   ").
  right. reflexivity.
Defined.

(** The page after "n" and "ns". *)
Lemma reachable_raw_ok_witness : raw_ok Demo.typed_ns.
Proof.
  apply (reachable_raw_ok Demo.host).
  unfold Demo.typed_ns, after. cbn [fold_left].
  apply reachable_step. apply reachable_step. apply reachable_initial.
Defined.

(** On the page, from the first of the two states for "ns", PageDown
    stops at the last and PageUp at the first. *)
Lemma nav_saturates_witness :
  selectedIndex (fst (increment Demo.host 10 Demo.typed_ns_home))
  = Some (maxIndex Demo.typed_ns_home)
  /\ selectedIndex (fst (decrement Demo.host 10 Demo.typed_ns_home))
     = Some 0.
Proof.
  assert (R : 0 <= 0 <= maxIndex Demo.typed_ns_home).
  { vm_compute. split; discriminate. }
  split.
  - apply (proj1 (nav_saturates Demo.host 10 0 Demo.typed_ns_home
                    eq_refl eq_refl R)).
    reflexivity.
  - apply (proj2 (nav_saturates Demo.host 10 0 Demo.typed_ns_home
                    eq_refl eq_refl R)).
    reflexivity.
Defined.

(** The state after the promise of the filter is rejected: [fetching] and
    [retry] cleared, [maxIndex] -1, the error on the console. *)
Lemma filter_rejected_clears (host : Host.t) (error : string) (st : State) :
  promiseSettled host (Rejected error) st
  = (log (ConsoleError
            (Host.ePre host "handleInputKeyUp"
             ++ " filter fetch failed with error: "
             ++ String (ascii_of_nat 34) error
             ++ String (ascii_of_nat 34) EmptyString))
       (set_maxIndex (-1) (set_retry 0 (set_fetching false st))),
     Ok tt).
Proof. reflexivity. Qed.

(** X10. When the promise of the filter is fulfilled with a value that
    is not an array, the component ends in the state of a rejection with
    the error [new Error('')]: the exception does not leave the chain. *)
Lemma non_array_resolution (host : Host.t) (response : JsVal) (st : State) :
  (forall items, response <> JArr items) ->
  promiseSettled host (Resolved response) st
  = promiseSettled host (Rejected (error_text (Error EmptyString))) st.
Proof.
  intros N. destruct response; try reflexivity.
  exfalso. apply (N items). reflexivity.
Qed.

(** The promise of "N" of the remote host, fulfilled with a string. *)
Lemma non_array_resolution_witness :
  fetching
    (fst (promiseSettled Demo.remoteHost (Resolved (JStr "busy"))
            Demo.remote_waiting)) = false
  /\ maxIndex
       (fst (promiseSettled Demo.remoteHost (Resolved (JStr "busy"))
               Demo.remote_waiting)) = -1.
Proof.
  rewrite (non_array_resolution Demo.remoteHost (JStr "busy")
             Demo.remote_waiting).
  - split; reflexivity.
  - intros items. discriminate.
Defined.

(** * Further properties of the code *)

(** ** Keys that do not filter *)

Lemma unchanged_refl (st : State) : unchanged st st.
Proof. repeat split. Qed.

Lemma calls_app (l1 l2 : list Effect) :
  calls (l1 ++ l2) = (calls l1 ++ calls l2)%list.
Proof. apply filter_app. Qed.

Lemma unchanged_log (st0 st : State) (e : Effect) :
  is_filter_call e = false -> unchanged st0 st -> unchanged st0 (log e st).
Proof.
  intros E (O & R & M & F & Fe & Re & C). repeat split; try assumption.
  cbn. rewrite calls_app, C. cbn. rewrite E. apply app_nil_r.
Qed.

(** One step in the proof that a method leaves the filtering unchanged. *)
Ltac frame_step :=
  first
    [ keeps_step
    | match goal with
      | |- keeps _ (tell _) =>
          apply keeps_modify; intros ? ?; apply unchanged_log;
          [reflexivity | assumption]
      | |- keeps _ (if ?x then _ else _) => destruct x
      end ].

Lemma emitChange_unchanged (st0 : State) (host : Host.t) (o : list JsVal)
    (i : option Z) (s : string) (c : bool) :
  keeps (unchanged st0) (emitChange host o i s c).
Proof. unfold emitChange. repeat frame_step. Qed.

Lemma increment_unchanged (st0 : State) (host : Host.t) (s : Z) :
  keeps (unchanged st0) (increment host s).
Proof.
  unfold increment. repeat frame_step; apply emitChange_unchanged.
Qed.

Lemma decrement_unchanged (st0 : State) (host : Host.t) (s : Z) :
  keeps (unchanged st0) (decrement host s).
Proof.
  unfold decrement. repeat frame_step; apply emitChange_unchanged.
Qed.

Lemma handleEnter_unchanged (st0 : State) (host : Host.t)
    (event : KeyEvent) :
  keeps (unchanged st0) (handleEnter host event).
Proof.
  unfold handleEnter. repeat frame_step; apply emitChange_unchanged.
Qed.

Lemma handleKeyboardNav_unchanged (st0 : State) (host : Host.t)
    (k : string) (ctrl : bool) (event : KeyEvent) :
  keeps (unchanged st0) (handleKeyboardNav host k ctrl event).
Proof.
  unfold handleKeyboardNav. frame_step; [frame_step|]. frame_step.
  repeat match goal with
         | |- keeps _ (if ?x then _ else _) => destruct x
         end;
    first [ apply increment_unchanged | apply decrement_unchanged
          | apply handleEnter_unchanged
          | repeat frame_step; apply emitChange_unchanged ].
Qed.

(** X11. A key that is not printable (an arrow, a page key, Home, End,
    Enter, Escape, Tab, a function key) never filters: whatever the
    handler does, and also when it throws, the options shown and cached,
    [maxIndex], the text filtered by, [fetching] and [retry] are as
    before, and the filter of the host has not been called. *)
Theorem navigation_key_never_filters (host : Host.t) (event : KeyEvent)
    (now : Z) (st : State) :
  isPrintableCharacter (key event) = false ->
  unchanged st (fst (handleInputKeyUp host event now st)).
Proof.
  intros NP. unfold handleInputKeyUp.
  destruct (event_target event) as [t|]; [|apply unchanged_refl].
  rewrite NP.
  apply (handleKeyboardNav_unchanged st host (key event) (ctrlKey event)
           event st (unchanged_refl st)).
Qed.

(** Enter on the page after "ns" and two ArrowDown. *)
Lemma navigation_key_never_filters_witness :
  unchanged Demo.typed_ns_down2
    (fst (handleInputKeyUp Demo.host
            (Demo.keyup "Enter" false "ns" (Some "Qld")) 3000
            Demo.typed_ns_down2)).
Proof.
  apply (navigation_key_never_filters Demo.host
           (Demo.keyup "Enter" false "ns" (Some "Qld")) 3000
           Demo.typed_ns_down2).
  reflexivity.
Defined.

(** X12. While there is no option ([maxIndex] is -1 or less), a key that
    is not printable changes nothing at all: Escape does not close the
    list, Enter commits and emits nothing. *)
Theorem keys_ignored_without_options (host : Host.t) (event : KeyEvent)
    (now : Z) (st : State) :
  isPrintableCharacter (key event) = false ->
  maxIndex st <= -1 ->
  fst (handleInputKeyUp host event now st) = st.
Proof.
  intros NP M. unfold handleInputKeyUp.
  destruct (event_target event) as [t|]; [|reflexivity].
  rewrite NP. unfold handleKeyboardNav, bind, get, when.
  assert (G : (maxIndex st >? -1) = false).
  { rewrite Z.gtb_ltb. apply Z.ltb_ge. exact M. }
  rewrite G. reflexivity.
Qed.

(** Escape in the field whose filter has found nothing: the list stays
    open. *)
Lemma keys_ignored_without_options_witness :
  showList
    (fst (handleInputKeyUp Demo.emptyHost
            (Demo.keyup "Escape" false "x" None) 2000 Demo.found_nothing))
  = true.
Proof.
  rewrite (keys_ignored_without_options Demo.emptyHost
             (Demo.keyup "Escape" false "x" None) 2000 Demo.found_nothing).
  - reflexivity.
  - reflexivity.
  - vm_compute. discriminate.
Defined.

(** ** Keys that filter, and the focus *)

Lemma calls_emitted (host : Host.t) (o : list JsVal) (i : option Z)
    (s : string) :
  calls (emitted host o i s) = [].
Proof.
  unfold emitted. cbn. now destruct (Props.required (Host.props host)).
Qed.

Lemma mapM_length {A B : Type} (f : A -> result B) (l : list A)
    (r : list B) :
  mapM f l = Ok r -> List.length r = List.length l.
Proof.
  revert r. induction l as [|x l IH]; cbn; intros r E.
  - injection E as <-. reflexivity.
  - destruct (f x) as [y|e]; cbn in E; [|discriminate].
    destruct (mapM f l) as [r'|e]; cbn in E; [|discriminate].
    injection E as <-. cbn. f_equal. now apply IH.
Qed.

(** [setOptions] on any list: it throws before writing anything, or it
    returns with the two lists and [maxIndex] written. *)
Lemma setOptions_cases (host : Host.t) (items : list JsVal) (st : State) :
  (exists e,
     getRawOptions host items = Throw e
     /\ setOptions host items st = (st, Throw e))
  \/ (exists raw st',
        getRawOptions host items = Ok raw
        /\ setOptions host items st = (st', Ok tt)
        /\ rawOptions st' = raw
        /\ options st' = raw
        /\ maxIndex st' = arr_length items - 1
        /\ fetching st' = fetching st
        /\ retry st' = retry st
        /\ showList st' = showList st
        /\ filterStr st' = filterStr st
        /\ selectedIndex st'
           = (if (arr_length items =? 1)
                 && Props.autoSelect (Host.props host)
              then Some 0 else selectedIndex st)
        /\ calls (effects st') = calls (effects st)).
Proof.
  unfold setOptions. run.
  destruct (getRawOptions host items) as [raw|e]; run;
    [right | left; eauto].
  exists raw.
  destruct ((arr_length items =? 1) && Props.autoSelect (Host.props host)),
    (arr_length items - 1 <? 0); run;
    try (eexists; repeat split; reflexivity);
    match goal with
    | |- context [emitChange host ?o ?i ?s false ?st0] =>
        destruct (emitChange_run host o i s false st0)
          as (st' & E & Eff & _ & Sel & Max & Opt & Raw & Fe & Re & Fi & Sh)
    end;
    rewrite E; exists st'; cbn in *;
    rewrite Eff, !calls_app, calls_emitted; cbn; rewrite app_nil_r;
    repeat split; assumption.
Qed.

(** What every call of [getOptionList] leaves: the text filtered by is
    untouched; when the filter is called, it is called once, with the
    query, and the list is open; when it is not, nothing is done outside
    the refs. *)
Lemma getOptionList_calls (host : Host.t) (str : string) (now : Z)
    (st : State) :
  filterStr (fst (getOptionList host str now st)) = filterStr st
  /\ (fetching st = false \/ retry st < now ->
      calls (effects (fst (getOptionList host str now st)))
      = (calls (effects st) ++ [FilterCall str])%list
      /\ showList (fst (getOptionList host str now st)) = true)
  /\ (fetching st = true -> now <= retry st ->
      effects (fst (getOptionList host str now st)) = effects st
      /\ showList (fst (getOptionList host str now st)) = showList st).
Proof.
  assert (Inv : fetching st = false \/ retry st < now ->
                filterStr (fst (getOptionList host str now st))
                = filterStr st
                /\ calls (effects (fst (getOptionList host str now st)))
                   = (calls (effects st) ++ [FilterCall str])%list
                /\ showList (fst (getOptionList host str now st)) = true).
  { intros C. rewrite (getOptionList_invokes host str now st C).
    destruct (Props.filter (Host.props host) str);
      try (cbn; rewrite calls_app; repeat split; reflexivity).
    - destruct (setOptions_cases host items (filter_called str st))
        as [(e & _ & E) | (raw & st' & _ & E & _ & _ & _ & _ & _ & Sh & Fi
                           & _ & Ca)];
        rewrite E; cbn [fst].
      + cbn. rewrite calls_app. repeat split.
      + rewrite Fi, Ca, Sh. cbn. rewrite calls_app. repeat split.
    - cbn. rewrite <- !app_assoc, calls_app. repeat split. }
  assert (Deb : fetching st = true -> now <= retry st ->
                filterStr (fst (getOptionList host str now st))
                = filterStr st
                /\ effects (fst (getOptionList host str now st)) = effects st
                /\ showList (fst (getOptionList host str now st))
                   = showList st).
  { intros F R. rewrite (getOptionList_debounced host str now st F R).
    destruct (bouncingFilter host (rawOptions st) (JStr str) (options st));
      repeat split. }
  split; [|split].
  - destruct (fetching st) eqn:F.
    + destruct (Z.lt_ge_cases (retry st) now) as [L|G].
      * apply Inv. now right.
      * apply (Deb eq_refl G).
    + apply Inv. now left.
  - intros C. apply (Inv C).
  - intros F R. apply (Deb F R).
Qed.

(** X13. A printable key stores the text of the input in [filterStr],
    also when the handler throws. Outside the debounce window it calls
    the filter of the host exactly once, with that text; inside the
    window it has no effect outside the refs. *)
Theorem printable_key_queries_input_text (host : Host.t) (event : KeyEvent)
    (now : Z) (st : State) (t : EventTarget) :
  event_target event = Some t ->
  isPrintableCharacter (key event) = true ->
  filterStr (fst (handleInputKeyUp host event now st)) = target_value t
  /\ (fetching st = false \/ retry st < now ->
      calls (effects (fst (handleInputKeyUp host event now st)))
      = (calls (effects st) ++ [FilterCall (target_value t)])%list)
  /\ (fetching st = true -> now <= retry st ->
      effects (fst (handleInputKeyUp host event now st)) = effects st).
Proof.
  intros T P. unfold handleInputKeyUp. rewrite T, P.
  unfold bind, modify. cbn [fst snd].
  destruct (getOptionList_calls host (target_value t) now
              (set_filterStr (target_value t) st)) as (Fi & Inv & Deb).
  split; [exact Fi|]. split.
  - intros C. apply (Inv C).
  - intros F R. apply (Deb F R).
Qed.

(** The page: "s" typed after "n", with "ns" in the input. *)
Lemma printable_key_queries_input_text_witness :
  filterStr
    (fst (handleInputKeyUp Demo.host (Demo.keyup "s" false "ns" None) 3000
            Demo.typed_n_down3)) = "ns"
  /\ calls
       (effects
          (fst (handleInputKeyUp Demo.host (Demo.keyup "s" false "ns" None)
                  3000 Demo.typed_n_down3)))
     = [FilterCall "n"; FilterCall "ns"].
Proof.
  destruct (printable_key_queries_input_text Demo.host
              (Demo.keyup "s" false "ns" None) 3000 Demo.typed_n_down3
              {| target_value := "ns"; dataset := Some [] |})
    as (Fi & Inv & _).
  - reflexivity.
  - reflexivity.
  - split; [exact Fi|]. rewrite Inv; [|left; reflexivity].
    vm_compute. reflexivity.
Defined.

(** X14. Focus on the input. With no cached option it does nothing; with
    cached options it ends with the list open, also when the query
    throws, and queries with the text last filtered by: one call of the
    filter outside the debounce window, none inside. *)
Theorem focus_reopens_list (host : Host.t) (now : Z) (st : State) :
  (rawOptions st = [] -> handleInputFocus host now st = (st, Ok tt))
  /\ (rawOptions st <> [] ->
      showList (fst (handleInputFocus host now st)) = true
      /\ filterStr (fst (handleInputFocus host now st)) = filterStr st
      /\ (fetching st = false \/ retry st < now ->
          calls (effects (fst (handleInputFocus host now st)))
          = (calls (effects st) ++ [FilterCall (filterStr st)])%list)
      /\ (fetching st = true -> now <= retry st ->
          effects (fst (handleInputFocus host now st)) = effects st)).
Proof.
  unfold handleInputFocus, bind, get, when, modify. split.
  - intros ->. reflexivity.
  - intros NE.
    assert (L : (arr_length (rawOptions st) >? 0) = true).
    { destruct (rawOptions st); [congruence|]. rewrite arr_length_cons.
      pose proof (arr_length_nonneg l). apply Z.gtb_lt. lia. }
    rewrite L. cbn [fst snd].
    destruct (getOptionList_calls host (filterStr st) now
                (set_showList true st)) as (Fi & Inv & Deb).
    split; [|split; [exact Fi|split]].
    + destruct (fetching st) eqn:F.
      * destruct (Z.lt_ge_cases (retry st) now) as [Lt|Ge].
        -- apply Inv. now right.
        -- destruct (Deb F Ge) as [_ Sh]. rewrite Sh. reflexivity.
      * apply Inv. now left.
    + intros C. apply (Inv C).
    + intros F R. apply (Deb F R).
Qed.

(** The page: focus before anything was typed, and after "ns". *)
Lemma focus_reopens_list_witness :
  handleInputFocus Demo.host 500 (initial Demo.host)
  = (initial Demo.host, Ok tt)
  /\ showList (fst (handleInputFocus Demo.host 4000 Demo.typed_ns)) = true
  /\ calls (effects (fst (handleInputFocus Demo.host 4000 Demo.typed_ns)))
     = [FilterCall "n"; FilterCall "ns"; FilterCall "ns"].
Proof.
  split.
  - apply (proj1 (focus_reopens_list Demo.host 500 (initial Demo.host))).
    reflexivity.
  - destruct (proj2 (focus_reopens_list Demo.host 4000 Demo.typed_ns))
      as (Sh & _ & Inv & _).
    + vm_compute. discriminate.
    + split; [exact Sh|]. rewrite Inv; [|left; reflexivity].
      vm_compute. reflexivity.
Defined.

(** ** The promise of the filter settles *)

(** The state the [.catch] handler leaves. *)
Lemma filterFailed_run (host : Host.t) (error : string) (st : State) :
  exists st',
    filterFailed host error st = (st', Ok tt)
    /\ fetching st' = false
    /\ retry st' = 0
    /\ maxIndex st' = -1
    /\ rawOptions st' = rawOptions st
    /\ options st' = options st
    /\ selectedIndex st' = selectedIndex st
    /\ filterStr st' = filterStr st
    /\ showList st' = showList st
    /\ calls (effects st') = calls (effects st).
Proof.
  eexists. split; [reflexivity|]. cbn. rewrite calls_app. cbn.
  rewrite app_nil_r. repeat split.
Qed.

(** Every way the promise settles: the handler returns, the session of
    the debounce is over, and either the fulfilment was an array that
    normalised, which is now shown and cached, or [maxIndex] is -1 and
    the lists are those of before. *)
Lemma promiseSettled_cases (host : Host.t) (s : Settled) (st : State) :
  exists st',
    promiseSettled host s st = (st', Ok tt)
    /\ fetching st' = false
    /\ retry st' = 0
    /\ filterStr st' = filterStr st
    /\ showList st' = showList st
    /\ calls (effects st') = calls (effects st)
    /\ ((exists items raw,
           s = Resolved (JArr items)
           /\ getRawOptions host items = Ok raw
           /\ rawOptions st' = raw
           /\ options st' = raw
           /\ maxIndex st' = arr_length items - 1
           /\ selectedIndex st'
              = (if (arr_length items =? 1)
                    && Props.autoSelect (Host.props host)
                 then Some 0 else selectedIndex st))
        \/ ((forall items raw,
               s = Resolved (JArr items) ->
               getRawOptions host items <> Ok raw)
            /\ maxIndex st' = -1
            /\ rawOptions st' = rawOptions st
            /\ options st' = options st
            /\ selectedIndex st' = selectedIndex st)).
Proof.
  assert (Failed : forall error st0,
             rawOptions st0 = rawOptions st -> options st0 = options st ->
             selectedIndex st0 = selectedIndex st ->
             filterStr st0 = filterStr st -> showList st0 = showList st ->
             calls (effects st0) = calls (effects st) ->
             exists st',
               filterFailed host error st0 = (st', Ok tt)
               /\ fetching st' = false /\ retry st' = 0
               /\ filterStr st' = filterStr st
               /\ showList st' = showList st
               /\ calls (effects st') = calls (effects st)
               /\ maxIndex st' = -1
               /\ rawOptions st' = rawOptions st
               /\ options st' = options st
               /\ selectedIndex st' = selectedIndex st).
  { intros error st0 R O Se Fi Sh Ca.
    destruct (filterFailed_run host error st0)
      as (st' & E & F' & R' & M' & Ra' & O' & S' & Fi' & Sh' & Ca').
    exists st'. split; [exact E|]. repeat split; congruence. }
  destruct s as [response | error].
  - assert (NotArr : (forall items, response <> JArr items) ->
                     promiseSettled host (Resolved response) st
                     = filterFailed host (error_text (Error EmptyString)) st).
    { intros N. destruct response; try reflexivity.
      exfalso. apply (N items). reflexivity. }
    destruct response as [| | | | | items | | |];
      try (destruct (Failed (error_text (Error EmptyString)) st
                       eq_refl eq_refl eq_refl eq_refl eq_refl eq_refl)
             as (st' & E & F & R & Fi & Sh & Ca & M & Ra & O & Se);
           exists st'; rewrite NotArr by (intros; discriminate);
           split; [exact E|]; repeat (split; [assumption|]);
           right; repeat split; try assumption; intros; discriminate).
    cbn [promiseSettled]. unfold catch, setOptionsThen, bind, modify.
    cbn [fst snd].
    destruct (setOptions_cases host items
                (set_retry 0 (set_fetching false st)))
      as [(e & G & E) | (raw & st' & G & E & Ra & O & M & F & R & Sh & Fi
                         & Se & Ca)];
      rewrite E.
    + destruct (Failed (error_text e) (set_retry 0 (set_fetching false st))
                  eq_refl eq_refl eq_refl eq_refl eq_refl eq_refl)
        as (st' & E' & F & R & Fi & Sh & Ca & M & Ra & O & Se).
      exists st'. split; [exact E'|]. repeat (split; [assumption|]).
      right. repeat split; try assumption.
      intros items' raw [= <-]. congruence.
    + exists st'. split; [reflexivity|]. repeat (split; [assumption|]).
      left. exists items, raw. repeat split; assumption.
  - cbn [promiseSettled].
    destruct (Failed error st eq_refl eq_refl eq_refl eq_refl eq_refl
                eq_refl)
      as (st' & E & F & R & Fi & Sh & Ca & M & Ra & O & Se).
    exists st'. split; [exact E|]. repeat (split; [assumption|]).
    right. repeat split; try assumption. intros; discriminate.
Qed.

(** X9. However the promise of the filter settles (fulfilled with an
    array, with an array that does not normalise, with something that is
    no array, or rejected), the handler returns without throwing, with
    [fetching] false and [retry] at 0, so that the next query, at any
    time, calls the filter of the host. *)
Theorem promise_settled_ends_session (host : Host.t) (s : Settled)
    (st : State) :
  snd (promiseSettled host s st) = Ok tt
  /\ fetching (fst (promiseSettled host s st)) = false
  /\ retry (fst (promiseSettled host s st)) = 0
  /\ forall (str : string) (now : Z),
       calls
         (effects
            (fst (getOptionList host str now
                    (fst (promiseSettled host s st)))))
       = (calls (effects st) ++ [FilterCall str])%list.
Proof.
  destruct (promiseSettled_cases host s st)
    as (st' & E & F & R & _ & _ & Ca & _).
  rewrite E. cbn [fst snd]. repeat split; try assumption.
  intros str now.
  destruct (getOptionList_calls host str now st') as (_ & Inv & _).
  rewrite <- Ca. apply Inv. now left.
Qed.

(** X15. A fulfilment with an array that normalises is shown and cached
    whatever the component shows when it arrives, a narrower interim
    list or the result of a later query: nothing tells which query it
    answers. [maxIndex] becomes the number of items minus 1. *)
Theorem fulfilment_overwrites_options (host : Host.t)
    (items raw : list JsVal) (st : State) :
  getRawOptions host items = Ok raw ->
  snd (promiseSettled host (Resolved (JArr items)) st) = Ok tt
  /\ options (fst (promiseSettled host (Resolved (JArr items)) st)) = raw
  /\ rawOptions (fst (promiseSettled host (Resolved (JArr items)) st)) = raw
  /\ maxIndex (fst (promiseSettled host (Resolved (JArr items)) st))
     = arr_length items - 1.
Proof.
  intros G.
  destruct (promiseSettled_cases host (Resolved (JArr items)) st)
    as (st' & E & _ & _ & _ & _ & _ & [Ok_ | Bad]).
  - destruct Ok_ as (items' & raw' & [= <-] & G' & Ra & O & M & _).
    rewrite E. cbn [fst snd]. rewrite G in G'. injection G' as <-.
    repeat split; assumption.
  - destruct Bad as (N & _). exfalso. apply (N items raw eq_refl G).
Qed.

(** The remote host shows the Northern Territory alone, an interim list,
    when the seven states arrive for an older query. *)
Lemma fulfilment_overwrites_options_witness :
  arr_length (options Demo.remote_interim) = 1
  /\ arr_length
       (options
          (fst (promiseSettled Demo.remoteHost
                  (Resolved (JArr Demo.auStates)) Demo.remote_interim))) = 7
  /\ maxIndex
       (fst (promiseSettled Demo.remoteHost
               (Resolved (JArr Demo.auStates)) Demo.remote_interim)) = 6.
Proof.
  destruct (fulfilment_overwrites_options Demo.remoteHost Demo.auStates
              (map (fun item =>
                      JObj (obj_set "icon" (JStr EmptyString) (spread item)))
                 Demo.auStates)
              Demo.remote_interim) as (_ & O & _ & M).
  - reflexivity.
  - split; [reflexivity|]. split; [rewrite O; reflexivity | exact M].
Defined.

(** ** Invariants of the component *)

Lemma reachable_after (host : Host.t) (inputs : list Input) (st : State) :
  reachable host st -> reachable host (after host st inputs).
Proof.
  revert st. induction inputs as [|i inputs IH]; intros st R.
  - exact R.
  - apply (IH (fst (step host i st))). apply reachable_step. exact R.
Qed.

(** Where [getOptionList] leaves the selection, the lists and the
    session, in each of its branches. *)
Lemma getOptionList_cases (host : Host.t) (str : string) (now : Z)
    (st : State) :
  (selectedIndex (fst (getOptionList host str now st)) = selectedIndex st
   \/ selectedIndex (fst (getOptionList host str now st)) = Some 0)
  /\ (maxIndex (fst (getOptionList host str now st)) = maxIndex st
      /\ rawOptions (fst (getOptionList host str now st)) = rawOptions st
      \/ maxIndex (fst (getOptionList host str now st))
         = arr_length (rawOptions (fst (getOptionList host str now st))) - 1)
  /\ (fetching (fst (getOptionList host str now st)) = true
      \/ retry (fst (getOptionList host str now st)) = 0
      \/ fetching (fst (getOptionList host str now st)) = fetching st
         /\ retry (fst (getOptionList host str now st)) = retry st).
Proof.
  assert (Inv : fetching st = false \/ retry st < now ->
                forall st', st' = fst (getOptionList host str now st) ->
                (selectedIndex st' = selectedIndex st
                 \/ selectedIndex st' = Some 0)
                /\ (maxIndex st' = maxIndex st
                    /\ rawOptions st' = rawOptions st
                    \/ maxIndex st' = arr_length (rawOptions st') - 1)
                /\ (fetching st' = true \/ retry st' = 0
                    \/ fetching st' = fetching st /\ retry st' = retry st)).
  { intros C st' ->. rewrite (getOptionList_invokes host str now st C).
    destruct (Props.filter (Host.props host) str);
      try solve [cbn; repeat split; auto].
    destruct (setOptions_cases host items (filter_called str st))
      as [(e & _ & E) | (raw & st' & G & E & Ra & O & M & Fe & Re & _ & _
                         & Se & _)];
      rewrite E; cbn [fst].
    - cbn. repeat split; auto.
    - rewrite Se, M, Ra, Re. split; [destruct (_ && _); auto|].
      split; [right|auto]. unfold arr_length.
      now rewrite (mapM_length _ _ _ G). }
  destruct (fetching st) eqn:F.
  - destruct (Z.lt_ge_cases (retry st) now) as [L|G].
    + apply (Inv (or_intror L) _ eq_refl).
    + rewrite (getOptionList_debounced host str now st F G).
      destruct (bouncingFilter host (rawOptions st) (JStr str) (options st));
        cbn; rewrite ?F; repeat split; auto.
  - apply (Inv (or_introl eq_refl) _ eq_refl).
Qed.

Lemma step_maxIndex_bounded (host : Host.t) (i : Input) :
  keeps maxIndex_bounded (step host i).
Proof.
  assert (Query : forall str now, keeps maxIndex_bounded
                                    (getOptionList host str now)).
  { intros str now st H. unfold maxIndex_bounded in *.
    destruct (getOptionList_cases host str now st)
      as (_ & [[M R] | M] & _).
    - now rewrite M, R.
    - rewrite M.
      pose proof (arr_length_nonneg
                    (rawOptions (fst (getOptionList host str now st)))).
      lia. }
  assert (Nav : forall k c ev, keeps maxIndex_bounded
                                 (handleKeyboardNav host k c ev)).
  { intros k c ev st H. unfold maxIndex_bounded in *.
    destruct (handleKeyboardNav_unchanged st host k c ev st
                (unchanged_refl st)) as (_ & R & M & _).
    now rewrite R, M. }
  destruct i as [event now | event | now | s | cb]; cbn [step].
  - unfold handleInputKeyUp.
    destruct (event_target event) as [t|]; [|apply keeps_throw].
    destruct (isPrintableCharacter (key event)); [|apply Nav].
    apply keeps_bind; [keeps_step | intros _; apply Query].
  - apply Nav.
  - unfold handleInputFocus.
    apply keeps_bind; [apply keeps_get | intros st0].
    apply keeps_when.
    apply keeps_bind; [keeps_step | intros _; apply Query].
  - intros st H. unfold maxIndex_bounded in *.
    destruct (promiseSettled_cases host s st)
      as (st' & E & _ & _ & _ & _ & _ & [Ok_ | Bad]); rewrite E; cbn [fst].
    + destruct Ok_ as (items & raw & _ & G & R & _ & M & _).
      rewrite M, R. unfold arr_length. rewrite (mapM_length _ _ _ G).
      pose proof (arr_length_nonneg items). unfold arr_length in *. lia.
    + destruct Bad as (_ & M & R & _). rewrite M, R.
      pose proof (arr_length_nonneg (rawOptions st)). lia.
  - destruct cb. intros st H. exact H.
Qed.

(** X16. In every state the component reaches, [maxIndex] is at least -1
    and at most the last index of the cached options: [End] and the
    clamp of [increment] never point past the cached list. *)
Theorem reachable_maxIndex_bounded (host : Host.t) (st : State) :
  reachable host st -> maxIndex_bounded st.
Proof.
  induction 1 as [|st i _ IH].
  - unfold maxIndex_bounded. cbn. lia.
  - apply (step_maxIndex_bounded host i st IH).
Qed.

(** The remote host while the interim list is shown. *)
Lemma reachable_maxIndex_bounded_witness :
  maxIndex_bounded Demo.remote_interim.
Proof.
  apply (reachable_maxIndex_bounded Demo.remoteHost).
  apply reachable_after. apply reachable_after. apply reachable_initial.
Defined.

Lemma step_retry_idle (host : Host.t) (i : Input) :
  keeps retry_idle (step host i).
Proof.
  assert (Query : forall str now, keeps retry_idle
                                    (getOptionList host str now)).
  { intros str now st H. unfold retry_idle in *.
    destruct (getOptionList_cases host str now st)
      as (_ & _ & [F | [R | [F R]]]).
    - rewrite F. discriminate.
    - now rewrite R.
    - now rewrite F, R. }
  assert (Nav : forall k c ev, keeps retry_idle
                                 (handleKeyboardNav host k c ev)).
  { intros k c ev st H. unfold retry_idle in *.
    destruct (handleKeyboardNav_unchanged st host k c ev st
                (unchanged_refl st)) as (_ & _ & _ & _ & F & R & _).
    now rewrite F, R. }
  destruct i as [event now | event | now | s | cb]; cbn [step].
  - unfold handleInputKeyUp.
    destruct (event_target event) as [t|]; [|apply keeps_throw].
    destruct (isPrintableCharacter (key event)); [|apply Nav].
    apply keeps_bind; [keeps_step | intros _; apply Query].
  - apply Nav.
  - unfold handleInputFocus.
    apply keeps_bind; [apply keeps_get | intros st0].
    apply keeps_when.
    apply keeps_bind; [keeps_step | intros _; apply Query].
  - intros st _ _.
    destruct (promiseSettled_cases host s st) as (st' & E & _ & R & _).
    rewrite E. exact R.
  - destruct cb. intros st _ _. reflexivity.
Qed.

(** X17. In every state the component reaches, a deadline [retry] other
    than 0 is there only while [fetching] is true: once the promise has
    settled, no query is kept from the filter of the host. *)
Theorem reachable_retry_idle (host : Host.t) (st : State) :
  reachable host st -> retry_idle st.
Proof.
  induction 1 as [|st i _ IH].
  - intros _. reflexivity.
  - apply (step_retry_idle host i st IH).
Qed.

(** The remote host once the seven states have arrived. *)
Lemma reachable_retry_idle_witness :
  retry
    (after Demo.remoteHost Demo.remote_interim
       [PromiseSettled (Resolved (JArr Demo.auStates))]) = 0.
Proof.
  apply (reachable_retry_idle Demo.remoteHost).
  - apply reachable_after. apply reachable_after. apply reachable_after.
    apply reachable_initial.
  - reflexivity.
Defined.

Lemma findValue_from (val : string) (l : list JsVal) (from a : Z) :
  findValue val l from = Ok (Some a) -> from <= a.
Proof.
  revert from. induction l as [|x l IH]; cbn; intros from E.
  - discriminate.
  - destruct (get_prop x "value") as [v|e]; cbn in E; [|discriminate].
    destruct v; try (apply IH in E; lia).
    destruct (String.eqb s val).
    + injection E as <-. lia.
    + apply IH in E. lia.
Qed.

Lemma emitChange_nonneg (host : Host.t) (o : list JsVal) (i : option Z)
    (s : string) (c : bool) :
  keeps selection_nonneg (emitChange host o i s c).
Proof. unfold emitChange. repeat keeps_step. Qed.

Lemma nav_nonneg (host : Host.t) (n : Nav) :
  0 < nav_step n -> keeps selection_nonneg (nav host n).
Proof.
  intros P st H.
  destruct (Z_gt_le_dec (maxIndex st) (-1)) as [G|L].
  - destruct (nav_run host n st G) as (Sel & _).
    unfold selection_nonneg in *. rewrite Sel.
    destruct n as [s|s]; cbn in P; unfold incremented, decremented;
      destruct (selectedIndex st) as [sel|]; try lia.
    + destruct (Z.leb_spec (sel + s) (maxIndex st)); [lia|].
      destruct (Props.loop (Host.props host)); lia.
    + destruct (Z.geb_spec (sel - s) 0); [lia|].
      destruct (Props.loop (Host.props host)); lia.
  - assert (E : (maxIndex st >? -1) = false).
    { rewrite Z.gtb_ltb. apply Z.ltb_ge. exact L. }
    destruct n as [s|s]; cbn [nav]; unfold increment, decrement, bind, get,
      when; rewrite E; exact H.
Qed.

Lemma handleEnter_nonneg (host : Host.t) (event : KeyEvent) :
  keeps selection_nonneg (handleEnter host event).
Proof.
  unfold handleEnter.
  apply keeps_bind; [apply keeps_modify; intros st _; exact I | intros _].
  apply keeps_bind.
  - apply keeps_when. apply keeps_bind; [apply keeps_get | intros st].
    apply keeps_lift. intros found E. destruct found as [a|].
    + apply keeps_modify. intros st' _. unfold selection_nonneg. cbn.
      apply (findValue_from _ _ _ _ E).
    + apply keeps_ret.
  - intros _. repeat keeps_step. apply emitChange_nonneg.
Qed.

Lemma handleKeyboardNav_nonneg (host : Host.t) (k : string) (ctrl : bool)
    (event : KeyEvent) :
  keeps selection_nonneg (handleKeyboardNav host k ctrl event).
Proof.
  intros st H. unfold handleKeyboardNav, bind, get, when. cbn [fst snd].
  destruct (maxIndex st >? -1) eqn:G; [|exact H].
  apply Z.gtb_gt in G.
  repeat match goal with
         | |- context [if key_in k ?l then _ else _] =>
             destruct (key_in k l)
         end.
  - apply (nav_nonneg host (Inc (if ctrl then 5 else 1))); [|exact H].
    destruct ctrl; reflexivity.
  - apply (nav_nonneg host (Dec (if ctrl then 5 else 1))); [|exact H].
    destruct ctrl; reflexivity.
  - apply (nav_nonneg host (Dec 10)); [reflexivity | exact H].
  - apply (nav_nonneg host (Inc 10)); [reflexivity | exact H].
  - unfold selection_nonneg. cbn. lia.
  - unfold selection_nonneg. cbn. lia.
  - apply (handleEnter_nonneg host event st H).
  - assert (K : keeps selection_nonneg
                  (bind (modify (set_selectedIndex None))
                     (fun _ =>
                        bind get
                          (fun st' =>
                             bind (emitChange host (options st')
                                     (selectedIndex st') (filterStr st')
                                     true)
                               (fun _ => modify (set_showList false)))))).
    { apply keeps_bind;
        [apply keeps_modify; intros st0 _; exact I | intros _].
      repeat keeps_step. apply emitChange_nonneg. }
    apply (K st H).
  - exact H.
Qed.

Lemma step_selection_nonneg (host : Host.t) (i : Input) :
  keeps selection_nonneg (step host i).
Proof.
  assert (Query : forall str now, keeps selection_nonneg
                                    (getOptionList host str now)).
  { intros str now st H. unfold selection_nonneg in *.
    destruct (getOptionList_cases host str now st) as ([S | S] & _);
      rewrite S; [exact H | lia]. }
  destruct i as [event now | event | now | s | cb]; cbn [step].
  - unfold handleInputKeyUp.
    destruct (event_target event) as [t|]; [|apply keeps_throw].
    destruct (isPrintableCharacter (key event));
      [|apply handleKeyboardNav_nonneg].
    apply keeps_bind; [keeps_step | intros _; apply Query].
  - apply handleKeyboardNav_nonneg.
  - unfold handleInputFocus.
    apply keeps_bind; [apply keeps_get | intros st0].
    apply keeps_when.
    apply keeps_bind; [keeps_step | intros _; apply Query].
  - intros st H. unfold selection_nonneg in *.
    destruct (promiseSettled_cases host s st)
      as (st' & E & _ & _ & _ & _ & _ & [Ok_ | Bad]); rewrite E; cbn [fst].
    + destruct Ok_ as (items & raw & _ & _ & _ & _ & _ & S). rewrite S.
      destruct (_ && _); [lia | exact H].
    + destruct Bad as (_ & _ & _ & _ & S). now rewrite S.
  - destruct cb. intros st H. exact H.
Qed.

(** X18. In every state the component reaches by the keyboard, the
    focus, the promise and the timer, the selection is none or an index
    that is not negative: no key moves it before the first option. (It
    can lie past the last one.) *)
Theorem reachable_selection_nonneg (host : Host.t) (st : State) :
  reachable host st -> selection_nonneg st.
Proof.
  induction 1 as [|st i _ IH].
  - exact I.
  - apply (step_selection_nonneg host i st IH).
Qed.

(** The page after "ns", two ArrowDown and PageUp. *)
Lemma reachable_selection_nonneg_witness :
  selection_nonneg
    (after Demo.host Demo.typed_ns_down2
       [InputKeyUp (Demo.keyup "PageUp" false "ns" (Some "Qld")) 3000]).
Proof.
  apply (reachable_selection_nonneg Demo.host).
  apply reachable_after. apply reachable_after. apply reachable_after.
  apply reachable_initial.
Defined.

(** ** What is emitted *)

Lemma checkValidity_faux (v j : JsVal) (e : EmitValidity) :
  checkValidity (target (getFauxInputEvent v j e))
  = ev_valid e && negb (ev_badInput e) && negb (ev_valueMissing e).
Proof.
  unfold checkValidity. cbn.
  destruct (ev_valid e), (ev_badInput e), (ev_valueMissing e); reflexivity.
Qed.

(** X19. Every [emitChange] returns and emits exactly one [change],
    followed when the field is required by one [invalid]. The
    [checkValidity()] of the target of the change is true exactly when
    the index is that of an object of the list; then the [value] and the
    [rawValue] of the target are the [value] and the copy of that
    option, and otherwise they are the empty string and [null]. The
    [invalid] carries the negation of [checkValidity()]. *)
Theorem emitChange_emits_selection (host : Host.t) (l : list JsVal)
    (idx : option Z) (str : string) (close : bool) (st : State) :
  exists st' ev,
    emitChange host l idx str close st = (st', Ok tt)
    /\ effects st'
       = (effects st ++ (if close then [InputFocus] else [])
          ++ EmitChange ev
             :: (if Props.required (Host.props host)
                 then [EmitInvalid (negb (checkValidity (target ev)))]
                 else []))%list
    /\ type ev = "change"
    /\ (forall o, refers_to l idx o ->
          checkValidity (target ev) = true
          /\ value (target ev) = obj_get "value" o
          /\ rawValue (target ev) = JObj o
          /\ activeVal st' = Some (obj_get "value" o))
    /\ ((forall o, ~ refers_to l idx o) ->
        checkValidity (target ev) = false
        /\ value (target ev) = JStr EmptyString
        /\ rawValue (target ev) = JNull
        /\ activeVal st' = None
        /\ activeID st' = None).
Proof.
  destruct (emitChange_run host l idx str close st) as (st' & E & Eff & _).
  exists st'.
  exists (getFauxInputEvent (output (getEmitData l idx str))
            (of_nullable (rawOutput (getEmitData l idx str)))
            (emit_validity (getEmitData l idx str))).
  split; [exact E|].
  assert (A : activeVal st'
              = (if bad (getEmitData l idx str) then None
                 else Some (output (getEmitData l idx str)))
              /\ activeID st'
                 = (if bad (getEmitData l idx str) then None
                    else Some (getID host "item" ++ "--" ++ index_text idx))).
  { unfold emitChange in E. revert E.
    destruct close, (Props.required (Host.props host)); run;
      intros [= <-]; split; reflexivity. }
  destruct A as [AV AI].
  split; [|split; [reflexivity|split]].
  - rewrite Eff. unfold emitted. rewrite checkValidity_faux.
    do 3 f_equal.
    destruct (Props.required (Host.props host)); [|reflexivity].
    do 2 f_equal. unfold getEmitData.
    destruct idx as [i|]; [|reflexivity].
    destruct (negb (arr_length l =? 0) && isObj (arr_at l i)); reflexivity.
  - intros o R. rewrite checkValidity_faux, AV.
    rewrite (getEmitData_valid l idx str o R). repeat split.
  - intros N. rewrite checkValidity_faux, AV, AI.
    rewrite (getEmitData_bad l idx str N). repeat split.
Qed.

(** The second state of the page, and no state at all. *)
Lemma emitChange_emits_selection_witness :
  (exists st' ev,
     emitChange Demo.host Demo.auStates (Some 1) "n" false
       (initial Demo.host) = (st', Ok tt)
     /\ effects st' = [EmitChange ev]
     /\ checkValidity (target ev) = true
     /\ value (target ev) = JStr "NSW")
  /\ (exists st' ev,
        emitChange Demo.host Demo.auStates None "n" false
          (initial Demo.host) = (st', Ok tt)
        /\ effects st' = [EmitChange ev]
        /\ checkValidity (target ev) = false
        /\ rawValue (target ev) = JNull).
Proof.
  split.
  - destruct (emitChange_emits_selection Demo.host Demo.auStates (Some 1)
                "n" false (initial Demo.host))
      as (st' & ev & E & Eff & _ & Valid & _).
    destruct (Valid [("value", JStr "NSW");
                     ("label", JStr "New South Wales")])
      as (C & V & _).
    + exists 1. split; [reflexivity | split; [lia | reflexivity]].
    + exists st', ev. split; [exact E|]. split; [exact Eff|].
      split; [exact C | exact V].
  - destruct (emitChange_emits_selection Demo.host Demo.auStates None
                "n" false (initial Demo.host))
      as (st' & ev & E & Eff & _ & _ & Bad).
    destruct Bad as (C & _ & Rv & _).
    + intros o (i & Hi & _). discriminate Hi.
    + exists st', ev. split; [exact E|]. split; [exact Eff|].
      split; [exact C | exact Rv].
Defined.

(** ** Lists that do not normalise, and filters that answer wrongly *)

Lemma getOptionItem_unsupported (host : Host.t)
    (func : JsVal -> result JsVal) (item : JsVal) :
  unsupported item ->
  getOptionItem host func item
  = Throw (Error (getOptionItem_badType item)).
Proof. destruct item; try contradiction; reflexivity. Qed.

Lemma getRawOptions_unsupported (host : Host.t) (items : list JsVal) :
  Exists unsupported items -> exists e, getRawOptions host items = Throw e.
Proof.
  unfold getRawOptions. induction 1 as [x l U | x l _ IH]; cbn.
  - rewrite (getOptionItem_unsupported host _ x U). cbn. eauto.
  - destruct (getOptionItem host (Host.normaliseSingleOption host) x)
      as [v|e]; cbn; [|eauto].
    destruct IH as (e & ->). cbn. eauto.
Qed.

(** X20. A list given at once by the filter with one item that is
    neither a string, a number nor an object is rejected whole: the
    query throws, nothing is emitted, and the options shown and cached,
    [maxIndex] and the selection are those of before; the list has been
    opened and the session of the debounce cleared. *)
Theorem bad_batch_rejected (host : Host.t) (st : State) (str : string)
    (now : Z) (items : list JsVal) :
  fetching st = false \/ retry st < now ->
  Props.filter (Host.props host) str = JArr items ->
  Exists unsupported items ->
  exists e,
    getOptionList host str now st = (filter_called str st, Throw e)
    /\ options (filter_called str st) = options st
    /\ rawOptions (filter_called str st) = rawOptions st
    /\ maxIndex (filter_called str st) = maxIndex st
    /\ selectedIndex (filter_called str st) = selectedIndex st
    /\ effects (filter_called str st) = (effects st ++ [FilterCall str])%list
    /\ showList (filter_called str st) = true
    /\ fetching (filter_called str st) = false.
Proof.
  intros C F U. destruct (getRawOptions_unsupported host items U) as (e & G).
  exists e. rewrite (getOptionList_invokes host str now st C), F.
  destruct (setOptions_cases host items (filter_called str st))
    as [(e' & G' & E) | (raw & st' & G' & _)].
  - rewrite E. rewrite G in G'. injection G' as <-. repeat split.
  - rewrite G in G'. discriminate.
Qed.

(** A host whose filter gives a list with [null] in it. *)
Lemma bad_batch_rejected_witness :
  exists e,
    getOptionList Demo.nullHost "n" 1000 Demo.typed_ns_nullHost
    = (filter_called "n" Demo.typed_ns_nullHost, Throw e)
    /\ maxIndex (filter_called "n" Demo.typed_ns_nullHost) = 1.
Proof.
  destruct (bad_batch_rejected Demo.nullHost Demo.typed_ns_nullHost "n" 1000
              [JStr "NSW"; JNull]) as (e & E & _ & _ & M & _).
  - left. reflexivity.
  - reflexivity.
  - right. left. exact I.
  - exists e. split; [exact E|]. rewrite M. reflexivity.
Defined.

(** X21. When the filter gives at once a value that is neither an array
    nor a promise, the query throws an error whose message ends with the
    [typeof] of that value and " returned", after the list has been
    opened and the session cleared; the options are left as they were. *)
Theorem wrong_filter_result_throws (host : Host.t) (st : State)
    (str : string) (now : Z) :
  fetching st = false \/ retry st < now ->
  (forall items, Props.filter (Host.props host) str <> JArr items) ->
  (forall pid, Props.filter (Host.props host) str <> JPromise pid) ->
  getOptionList host str now st
  = (filter_called str st,
     Throw (Error (Host.ePre host "handleInputKeyUp"
                   ++ " expects `filter` attribute to return either an "
                   ++ "array or a Promise. "
                   ++ typeof (Props.filter (Host.props host) str)
                   ++ " returned"))).
Proof.
  intros C NA NP. rewrite (getOptionList_invokes host str now st C).
  destruct (Props.filter (Host.props host) str) eqn:F; try reflexivity.
  - exfalso. apply (NA items). reflexivity.
  - exfalso. apply (NP pid). reflexivity.
Qed.

(** A host whose filter gives [undefined]. *)
Lemma wrong_filter_result_throws_witness :
  snd (getOptionList Demo.undefinedHost "n" 1000 (initial Demo.undefinedHost))
  = Throw (Error ("ComboboxInput.handleInputKeyUp() expects `filter` "
                  ++ "attribute to return either an array or a Promise. "
                  ++ "undefined returned"))
  /\ showList
       (fst (getOptionList Demo.undefinedHost "n" 1000
               (initial Demo.undefinedHost))) = true.
Proof.
  rewrite (wrong_filter_result_throws Demo.undefinedHost
             (initial Demo.undefinedHost) "n" 1000).
  - split; reflexivity.
  - left. reflexivity.
  - intros items. discriminate.
  - intros pid. discriminate.
Defined.

(** X22. Options given as strings and numbers come back on commit: after
    normalisation, every index of the list names an option, and the
    change built for it is valid and carries the text of the item at
    that index. *)
Theorem primitive_options_round_trip (host : Host.t) (items : list JsVal) :
  Forall (fun item => isStrNum item = true) items ->
  exists raw,
    getRawOptions host items = Ok raw
    /\ List.length raw = List.length items
    /\ forall (i : nat) (item : JsVal) (str : string),
         nth_error items i = Some item ->
         emit_validity (getEmitData raw (Some (Z.of_nat i)) str) = all_valid
         /\ output (getEmitData raw (Some (Z.of_nat i)) str)
            = JStr (text_of item).
Proof.
  intros All.
  assert (G : getRawOptions host items
              = Ok (map (fun item => JObj (option_with_default (text_of item)))
                      items)).
  { unfold getRawOptions. induction All as [|x l Hx _ IH]; [reflexivity|].
    cbn [mapM map]. unfold getOptionItem at 1. rewrite Hx, IH. cbn.
    destruct x; try discriminate; reflexivity. }
  eexists. split; [exact G|]. split; [apply length_map|].
  intros i item str N.
  rewrite (getEmitData_valid _ (Some (Z.of_nat i)) str
             (option_with_default (text_of item))).
  - split; reflexivity.
  - exists (Z.of_nat i). split; [reflexivity|]. split; [lia|].
    rewrite Nat2Z.id, nth_error_map, N. reflexivity.
Qed.

(** Three items, the third a number. *)
Lemma primitive_options_round_trip_witness :
  exists raw,
    getRawOptions Demo.host [JStr "ACT"; JStr "NSW"; JNum "2600"] = Ok raw
    /\ output (getEmitData raw (Some 2) EmptyString) = JStr "2600".
Proof.
  destruct (primitive_options_round_trip Demo.host
              [JStr "ACT"; JStr "NSW"; JNum "2600"])
    as (raw & G & _ & Get).
  - repeat constructor.
  - exists raw. split; [exact G|].
    apply (proj2 (Get 2%nat (JNum "2600") EmptyString eq_refl)).
Defined.

(** ** The default secondary filter on a value that is no string *)

Lemma defaultFilter_test_throws (val : string) (item : JsVal) :
  ~ value_is_string item -> defaultFilter_test val item = Throw TypeError.
Proof.
  intros N. unfold defaultFilter_test.
  destruct item; cbn; try reflexivity.
  destruct (obj_get "value" fields) eqn:G; cbn; try reflexivity.
  exfalso. apply N. exists s. cbn. now rewrite G.
Qed.

Lemma defaultFilter_test_result (val : string) (item : JsVal) :
  (exists b, defaultFilter_test val item = Ok b)
  \/ defaultFilter_test val item = Throw TypeError.
Proof.
  unfold defaultFilter_test.
  destruct item; cbn; auto.
  destruct (obj_get "value" fields); cbn; auto.
  destruct (includes (toLocaleLowerCase s) val); cbn; eauto.
Qed.

(** X23. With a query that is not blank, the default secondary filter
    throws a [TypeError] as soon as the [value] of one option of the
    full list cannot be read or is not a string: no narrowed list comes
    back. *)
Theorem defaultFilter_throws_on_non_string (optionList options : list JsVal)
    (query : string) :
  trim query <> EmptyString ->
  Exists (fun item => ~ value_is_string item) optionList ->
  defaultFilter optionList (JStr query) options = Throw TypeError.
Proof.
  intros NB Bad. unfold defaultFilter.
  assert (L : (arr_length optionList >? 0) = true).
  { destruct optionList; [inversion Bad|]. rewrite arr_length_cons.
    pose proof (arr_length_nonneg optionList). apply Z.gtb_lt. lia. }
  rewrite L.
  assert (B : String.eqb (toLocaleLowerCase (trim query)) EmptyString = false).
  { apply String.eqb_neq. now rewrite toLocaleLowerCase_empty. }
  rewrite B. cbn [negb]. clear L B.
  induction Bad as [x l N | x l _ IH]; cbn [filterM].
  - now rewrite (defaultFilter_test_throws _ x N).
  - destruct (defaultFilter_test_result (toLocaleLowerCase (trim query)) x)
      as [(b & ->) | ->]; [|reflexivity].
    cbn. now rewrite IH.
Qed.

(** An option whose [value] is the number 7. *)
Lemma defaultFilter_throws_on_non_string_witness :
  defaultFilter
    [Demo.state "Qld" "Queensland";
     JObj [("value", JNum "7"); ("label", JStr "seven")]]
    (JStr "q") []
  = Throw TypeError.
Proof.
  apply (defaultFilter_throws_on_non_string
           [Demo.state "Qld" "Queensland";
            JObj [("value", JNum "7"); ("label", JStr "seven")]] [] "q").
  - discriminate.
  - right. left. intros (s & E). discriminate E.
Defined.

(** ** Objects through the normaliser *)

Lemma obj_get_set_same (k : string) (v : JsVal) (o : Obj) :
  obj_get k (obj_set k v o) = v.
Proof.
  induction o as [|[k' v'] o IH]; cbn.
  - now rewrite String.eqb_refl.
  - destruct (String.eqb k k') eqn:E; cbn.
    + now rewrite String.eqb_refl.
    + now rewrite E.
Qed.

Lemma obj_get_set_other (k k' : string) (v : JsVal) (o : Obj) :
  k' <> k -> obj_get k' (obj_set k v o) = obj_get k' o.
Proof.
  intros N. induction o as [|[k0 v0] o IH]; cbn.
  - apply String.eqb_neq in N. now rewrite N.
  - destruct (String.eqb k k0) eqn:E; cbn.
    + apply String.eqb_eq in E. subst k0.
      apply String.eqb_neq in N. now rewrite N.
    + destruct (String.eqb k' k0); [reflexivity | exact IH].
Qed.

(** X24. An object goes through the field mapping with its [icon] made a
    string (the empty one when it has none) and its other properties as
    they are; what the mapping returns is the option, unless its [value]
    or its [label] is the empty string: an option made from an object
    never has an empty [value] or [label]. *)
Theorem object_option_has_value_and_label (host : Host.t)
    (func : JsVal -> result JsVal) (item v : JsVal) :
  isObj item = true ->
  getOptionItem host func item = Ok v ->
  (exists (o : Obj) (icon : string),
     func (JObj o) = Ok v
     /\ obj_get "icon" o = JStr icon
     /\ (obj_get "icon" (spread item) = JUndefined -> icon = EmptyString)
     /\ forall k, k <> "icon" -> obj_get k o = obj_get k (spread item))
  /\ get_prop v "value" <> Ok (JStr EmptyString)
  /\ get_prop v "label" <> Ok (JStr EmptyString).
Proof.
  intros O E. unfold getOptionItem in E.
  destruct item; try discriminate O. cbn [isStrNum isObj spread] in E.
  set (icon := if negb (String.eqb (typeof (obj_get "icon" fields))
                                   "undefined")
               then nullStr (Host.nullStr_other host) (obj_get "icon" fields)
               else EmptyString).
  assert (I : (if negb (String.eqb (typeof (obj_get "icon" fields))
                                   "undefined")
               then JStr (nullStr (Host.nullStr_other host)
                            (obj_get "icon" fields))
               else JStr EmptyString) = JStr icon).
  { unfold icon. now destruct (negb _). }
  rewrite I in E.
  destruct (func (JObj (obj_set "icon" (JStr icon) fields))) as [r|e] eqn:F;
    cbn in E; [|discriminate].
  destruct (get_prop r "value") as [val|e] eqn:V; cbn in E; [|discriminate].
  assert (NV : val <> JStr EmptyString).
  { intros ->. discriminate E. }
  assert (E' : rbind (get_prop r "label")
                 (fun l => match l with
                           | JStr EmptyString =>
                               Throw (Error getOptionItem_noName)
                           | _ => Ok r
                           end) = Ok v).
  { destruct val as [| | | |s| | | |]; try exact E.
    destruct s; [contradiction | exact E]. }
  destruct (get_prop r "label") as [lab|e] eqn:L; cbn in E'; [|discriminate].
  assert (NL : lab <> JStr EmptyString).
  { intros ->. discriminate E'. }
  assert (R : r = v).
  { destruct lab as [| | | |s| | | |]; try (now injection E').
    destruct s; [contradiction | now injection E']. }
  subst r. split; [|split].
  - exists (obj_set "icon" (JStr icon) fields), icon.
    split; [exact F|]. split; [apply obj_get_set_same|]. split.
    + intros U. unfold icon. cbn [spread] in U. now rewrite U.
    + intros k N. cbn [spread]. now apply obj_get_set_other.
  - rewrite V. congruence.
  - rewrite L. congruence.
Qed.

(** Queensland through the normaliser of the page. *)
Lemma object_option_has_value_and_label_witness :
  get_prop (JObj [("value", JStr "Qld"); ("label", JStr "Queensland");
                  ("icon", JStr EmptyString)]) "value"
  <> Ok (JStr EmptyString)
  /\ get_prop (JObj [("value", JStr "Qld"); ("label", JStr "Queensland");
                     ("icon", JStr EmptyString)]) "label"
     <> Ok (JStr EmptyString).
Proof.
  apply (object_option_has_value_and_label Demo.host
           (Host.normaliseSingleOption Demo.host)
           (Demo.state "Qld" "Queensland")).
  - reflexivity.
  - reflexivity.
Defined.

(** ** The item named by [aria-activedescendant] *)



(** ** A filter that answers at once *)

Lemma step_idle (host : Host.t) (i : Input) :
  synchronous host -> keeps idle (step host i).
Proof.
  intros Sync.
  assert (Query : forall str now, keeps idle (getOptionList host str now)).
  { intros str now st [F R]. unfold idle.
    rewrite (getOptionList_invokes host str now st (or_introl F)).
    destruct (Sync str) as (items & ->).
    destruct (setOptions_cases host items (filter_called str st))
      as [(e & _ & E) | (raw & st' & _ & E & _ & _ & _ & F' & R' & _)];
      rewrite E; cbn [fst].
    - split; reflexivity.
    - rewrite F', R'. split; reflexivity. }
  assert (Nav : forall k c ev, keeps idle (handleKeyboardNav host k c ev)).
  { intros k c ev st [F R]. unfold idle.
    destruct (handleKeyboardNav_unchanged st host k c ev st
                (unchanged_refl st)) as (_ & _ & _ & _ & F' & R' & _).
    now rewrite F', R'. }
  destruct i as [event now | event | now | s | cb]; cbn [step].
  - unfold handleInputKeyUp.
    destruct (event_target event) as [t|]; [|apply keeps_throw].
    destruct (isPrintableCharacter (key event)); [|apply Nav].
    apply keeps_bind; [keeps_step | intros _; apply Query].
  - apply Nav.
  - unfold handleInputFocus.
    apply keeps_bind; [apply keeps_get | intros st0].
    apply keeps_when.
    apply keeps_bind; [keeps_step | intros _; apply Query].
  - intros st _.
    destruct (promiseSettled_cases host s st) as (st' & E & F & R & _).
    rewrite E. split; assumption.
  - destruct cb. intros st [F _]. split; [exact F | reflexivity].
Qed.

(** X26. [debounceTime] is ignored when the filter answers with arrays:
    with such a filter the component never waits ([fetching] stays false
    and [retry] 0 in every state it reaches), so every printable key
    calls the filter of the host, once, with the text of the input. *)
Theorem synchronous_filter_never_debounces (host : Host.t) (st : State) :
  synchronous host ->
  reachable host st ->
  idle st
  /\ forall (event : KeyEvent) (t : EventTarget) (now : Z),
       event_target event = Some t ->
       isPrintableCharacter (key event) = true ->
       calls (effects (fst (handleInputKeyUp host event now st)))
       = (calls (effects st) ++ [FilterCall (target_value t)])%list.
Proof.
  intros Sync R.
  assert (I : idle st).
  { induction R as [|st i _ IH].
    - split; reflexivity.
    - apply (step_idle host i Sync st IH). }
  split; [exact I|]. intros event t now T P.
  unfold handleInputKeyUp. rewrite T, P.
  unfold bind, modify. cbn [fst snd].
  destruct (getOptionList_calls host (target_value t) now
              (set_filterStr (target_value t) st)) as (_ & Inv & _).
  apply Inv. left. apply I.
Qed.

(** The page, whose filter is [getOptions]: "w" typed after "ns". *)
Lemma synchronous_filter_never_debounces_witness :
  idle Demo.typed_ns
  /\ calls
       (effects
          (fst (handleInputKeyUp Demo.host (Demo.keyup "w" false "nsw" None)
                  1200 Demo.typed_ns)))
     = [FilterCall "n"; FilterCall "ns"; FilterCall "nsw"].
Proof.
  destruct (synchronous_filter_never_debounces Demo.host Demo.typed_ns)
    as (I & Key).
  - intros str. eexists. reflexivity.
  - apply reachable_after. apply reachable_initial.
  - split; [exact I|].
    rewrite (Key (Demo.keyup "w" false "nsw" None)
               {| target_value := "nsw"; dataset := Some [] |} 1200
               eq_refl eq_refl).
    vm_compute. reflexivity.
Defined.

(** ** The list rendered *)

Lemma render_from_items (host : Host.t) (wrap : bool) (st : State)
    (opts : list JsVal) :
  forall (k : Z) (items : list ComboboxItem.props),
    render_from host wrap st k opts = Ok items ->
    List.length items = List.length opts
    /\ forall (i : nat) (p : ComboboxItem.props),
         nth_error items i = Some p ->
         exists option,
           nth_error opts i = Some option
           /\ item_props host wrap st (k + Z.of_nat i) option = Ok p.
Proof.
  induction opts as [|option rest IH]; intros k items E.
  - injection E as <-. split; [reflexivity|]. intros [|i] p N; discriminate.
  - cbn [render_from] in E.
    destruct (item_props host wrap st k option) as [q|e] eqn:Q;
      cbn in E; [|discriminate].
    destruct (render_from host wrap st (k + 1) rest) as [ps|e] eqn:R;
      cbn in E; [|discriminate].
    injection E as <-.
    destruct (IH (k + 1) ps R) as [Len Each].
    split; [cbn; now rewrite Len|].
    intros [|i] p N.
    + injection N as <-. exists option. rewrite Z.add_0_r. now split.
    + cbn [nth_error] in N. destruct (Each i p N) as (o & O & P).
      exists o. split; [exact O|].
      now replace (k + Z.of_nat (S i)) with (k + 1 + Z.of_nat i) by lia.
Qed.

Lemma item_props_inv (host : Host.t) (wrap : bool) (st : State) (index : Z)
    (option : JsVal) (p : ComboboxItem.props) :
  item_props host wrap st index option = Ok p ->
  ComboboxItem.index p = index
  /\ ComboboxItem.id p = getID host "item"
  /\ ComboboxItem.focused p = is_selected st index
  /\ ComboboxItem.selected p = is_selected st index
  /\ ComboboxItem.wrap p = wrap
  /\ get_prop option "value" = Ok (ComboboxItem.value p)
  /\ (exists l, get_prop option "label" = Ok l
                /\ ComboboxItem.label p = prop_or (JStr EmptyString) l)
  /\ (exists c, get_prop option "icon" = Ok c
                /\ ComboboxItem.icon p = prop_or (JStr EmptyString) c).
Proof.
  unfold item_props. intros E.
  destruct (get_prop option "icon") as [c|] eqn:C; cbn in E; [|discriminate].
  destruct (get_prop option "label") as [l|] eqn:L; cbn in E; [|discriminate].
  destruct (get_prop option "value") as [v|] eqn:V; cbn in E; [|discriminate].
  injection E as <-. cbn. repeat split; eauto.
Qed.

(** X27. Of the items the list renders, the one shown as focused and
    selected is the one at [selectedIndex], and no other: an item is
    highlighted exactly when its position is the selection, its [id] is the
    one [aria-activedescendant] is built from, and there is one item for
    each option. *)
Theorem rendered_highlight_is_selection (host : Host.t) (wrap : bool)
    (st : State) (items : list ComboboxItem.props) :
  showList st = true ->
  render host wrap st = Ok items ->
  List.length items = List.length (options st)
  /\ forall (i : nat) (p : ComboboxItem.props),
       nth_error items i = Some p ->
       ComboboxItem.itemID p = rendered_itemID host (Z.of_nat i)
       /\ ComboboxItem.selected p = ComboboxItem.focused p
       /\ (ComboboxItem.focused p = true
           <-> selectedIndex st = Some (Z.of_nat i)).
Proof.
  unfold render. intros -> R.
  destruct (render_from_items host wrap st (options st) 0 items R)
    as [Len Each].
  split; [exact Len|]. intros i p N.
  destruct (Each i p N) as (o & _ & P).
  destruct (item_props_inv host wrap st _ o p P)
    as (I & D & F & S & _).
  cbn [Z.add] in I, F, S.
  repeat split.
  - unfold ComboboxItem.itemID, rendered_itemID. now rewrite I, D.
  - now rewrite F, S.
  - rewrite F. unfold is_selected.
    destruct (selectedIndex st) as [j|]; [|discriminate].
    intros H. apply Z.eqb_eq in H. now subst.
  - rewrite F. unfold is_selected. intros ->. apply Z.eqb_refl.
Qed.

Lemma rendered_highlight_is_selection_witness :
  showList Demo.typed_n_down3 = true
  /\ exists items,
       render Demo.host false Demo.typed_n_down3 = Ok items
       /\ List.length items = List.length (options Demo.typed_n_down3)
       /\ forall (i : nat) (p : ComboboxItem.props),
            nth_error items i = Some p ->
            ComboboxItem.focused p = true
            <-> selectedIndex Demo.typed_n_down3 = Some (Z.of_nat i).
Proof.
  split; [vm_compute; reflexivity|].
  destruct (render Demo.host false Demo.typed_n_down3) as [items|e] eqn:R.
  - exists items. split; [reflexivity|].
    destruct (rendered_highlight_is_selection Demo.host false
                Demo.typed_n_down3 items) as [Len Each];
      [vm_compute; reflexivity | exact R |].
    split; [exact Len|]. intros i p N. apply (Each i p N).
  - vm_compute in R. discriminate.
Defined.

Lemma getRawOptions_primitives (host : Host.t) (items : list JsVal) :
  Forall (fun item => isStrNum item = true) items ->
  getRawOptions host items
  = Ok (map (fun item => JObj (option_with_default (text_of item))) items).
Proof.
  intros All. unfold getRawOptions.
  induction All as [|x l Hx _ IH]; [reflexivity|].
  cbn [mapM map]. unfold getOptionItem at 1. rewrite Hx, IH. cbn.
  destruct x; try discriminate; reflexivity.
Qed.

(** X28. Options given as plain strings or numbers are rendered with their
    own text as the label and without an icon: when the options shown are
    the normalised form of such a list, the list renders, item by item,
    [labelTxt] the text of the option and [iconType] empty. *)
Theorem primitive_options_render_as_text (host : Host.t) (wrap : bool)
    (st : State) (items : list JsVal) :
  Forall (fun item => isStrNum item = true) items ->
  showList st = true ->
  getRawOptions host items = Ok (options st) ->
  exists rendered,
    render host wrap st = Ok rendered
    /\ List.length rendered = List.length items
    /\ forall (i : nat) (item : JsVal),
         nth_error items i = Some item ->
         exists p,
           nth_error rendered i = Some p
           /\ ComboboxItem.labelTxt p = JStr (text_of item)
           /\ ComboboxItem.iconType p = EmptyString.
Proof.
  intros All Shown G. rewrite (getRawOptions_primitives host items All) in G.
  injection G as G. unfold render. rewrite Shown, <- G. clear G Shown.
  generalize 0 as k.
  induction All as [|x l Hx _ IH]; intros k.
  - exists []. split; [reflexivity|]. split; [reflexivity|].
    intros [|i] item N; discriminate.
  - destruct (IH (k + 1)) as (ps & R & Len & Each).
    cbn [map render_from]. rewrite R.
    eexists. split; [reflexivity|]. split; [cbn; now rewrite Len|].
    intros [|i] item N.
    + injection N as <-. eexists. split; [reflexivity|].
      unfold ComboboxItem.labelTxt, ComboboxItem.iconType. cbn.
      split; [|reflexivity].
      now destruct (negb (String.eqb (trim (text_of x)) EmptyString)).
    + cbn [nth_error] in N. apply (Each i item N).
Qed.

Lemma primitive_options_render_as_text_witness :
  showList Demo.typed_a_plain = true
  /\ exists rendered,
       render Demo.plainHost false Demo.typed_a_plain = Ok rendered
       /\ exists p,
            nth_error rendered 1 = Some p
            /\ ComboboxItem.labelTxt p = JStr "2600"
            /\ ComboboxItem.iconType p = EmptyString.
Proof.
  split; [vm_compute; reflexivity|].
  destruct (primitive_options_render_as_text Demo.plainHost false
              Demo.typed_a_plain [JStr "ACT"; JNum "2600"])
    as (rendered & R & _ & Each).
  - repeat constructor.
  - vm_compute. reflexivity.
  - vm_compute. reflexivity.
  - exists rendered. split; [exact R|].
    apply (Each 1%nat (JNum "2600") eq_refl).
Defined.

(** ** Automatic selection and the debounce window *)

(** X30. With [autoSelect] set, a filter that answers with a single option
    selects it at once: the query calls the filter, the selection becomes
    the first item, and one valid "change" event carries that option's
    value; a required field is told it is not invalid. *)
Theorem auto_select_emits_option (host : Host.t) (st : State) (str : string)
    (now : Z) (item : JsVal) (o : Obj) :
  fetching st = false \/ retry st < now ->
  Props.autoSelect (Host.props host) = true ->
  Props.filter (Host.props host) str = JArr [item] ->
  getRawOptions host [item] = Ok [JObj o] ->
  exists st' ev,
    getOptionList host str now st = (st', Ok tt)
    /\ selectedIndex st' = Some 0
    /\ maxIndex st' = 0
    /\ showList st' = true
    /\ effects st'
       = (effects st
          ++ FilterCall str :: EmitChange ev
             :: (if Props.required (Host.props host)
                 then [EmitInvalid false] else []))%list
    /\ type ev = "change"
    /\ checkValidity (target ev) = true
    /\ value (target ev) = obj_get "value" o
    /\ rawValue (target ev) = JObj o.
Proof.
  intros Go Auto F G.
  rewrite (getOptionList_invokes host str now st Go), F.
  destruct (setOptions_sync host [item] [JObj o] (filter_called str st) G)
    as (st' & E & Max & _ & _ & _ & _ & Shown & _ & Sel);
    [discriminate|].
  rewrite Auto in Sel. change (arr_length [item]) with 1 in Sel, Max.
  cbn in Sel. destruct Sel as [Sel Eff].
  assert (R : refers_to [JObj o] (Some 0) o).
  { exists 0. repeat split. lia. }
  unfold emitted in Eff.
  rewrite (getEmitData_valid [JObj o] (Some 0) _ o R) in Eff.
  exists st'. eexists. split; [exact E|].
  split; [exact Sel|]. split; [exact Max|]. split; [exact Shown|].
  split.
  - rewrite Eff. cbn. rewrite <- app_assoc. reflexivity.
  - rewrite checkValidity_faux. repeat split.
Qed.

Lemma auto_select_emits_option_witness :
  exists st' ev,
    getOptionList Demo.loopHost "tas" 1000 (initial Demo.loopHost)
    = (st', Ok tt)
    /\ selectedIndex st' = Some 0
    /\ value (target ev) = JStr "Tas"
    /\ effects st' = [FilterCall "tas"; EmitChange ev].
Proof.
  destruct (auto_select_emits_option Demo.loopHost (initial Demo.loopHost)
              "tas" 1000 (JObj [("value", JStr "Tas"); ("label", JStr "Tasmania");
                     ("icon", JStr EmptyString)])
              [("value", JStr "Tas"); ("label", JStr "Tasmania");
               ("icon", JStr EmptyString)])
    as (st' & ev & E & Sel & _ & _ & Eff & _ & _ & V & _).
  - left. reflexivity.
  - reflexivity.
  - vm_compute. reflexivity.
  - vm_compute. reflexivity.
  - exists st', ev. split; [exact E|]. split; [exact Sel|].
    split; [exact V|]. exact Eff.
Defined.

Lemma typed_within_step (host : Host.t) (st : State) (i : Input) :
  fetching st = true ->
  typed_within (retry st) i ->
  effects (fst (step host i st)) = effects st
  /\ fetching (fst (step host i st)) = true
  /\ retry (fst (step host i st)) = retry st
  /\ rawOptions (fst (step host i st)) = rawOptions st
  /\ maxIndex (fst (step host i st)) = maxIndex st
  /\ selectedIndex (fst (step host i st)) = selectedIndex st
  /\ showList (fst (step host i st)) = showList st.
Proof.
  intros F (event & now & t & -> & T & P & Le).
  unfold step, handleInputKeyUp. rewrite T, P.
  unfold bind, modify.
  rewrite (getOptionList_debounced host (target_value t) now
             (set_filterStr (target_value t) st) F Le).
  destruct (bouncingFilter host _ _ _); cbn; repeat split; exact F.
Qed.

(** X29. While a request is pending, typing inside the debounce window
    never reaches the filter, however many keys are typed: after any run
    of printable keys released not after the deadline, nothing has been
    logged (no filter call, no event, no timer), the request is still
    pending with the same deadline, and the unfiltered options, the last
    index and the selection are as they were. *)
Theorem debounce_window_absorbs_keys (host : Host.t) (inputs : list Input) :
  forall st : State,
    fetching st = true ->
    Forall (typed_within (retry st)) inputs ->
    effects (after host st inputs) = effects st
    /\ fetching (after host st inputs) = true
    /\ retry (after host st inputs) = retry st
    /\ rawOptions (after host st inputs) = rawOptions st
    /\ maxIndex (after host st inputs) = maxIndex st
    /\ selectedIndex (after host st inputs) = selectedIndex st
    /\ showList (after host st inputs) = showList st.
Proof.
  induction inputs as [|i rest IH]; intros st F All.
  - repeat split. exact F.
  - inversion All as [|? ? Hi Hrest]; subst.
    destruct (typed_within_step host st i F Hi)
      as (E1 & F1 & R1 & W1 & M1 & S1 & L1).
    change (after host st (i :: rest))
      with (after host (fst (step host i st)) rest).
    rewrite <- R1 in Hrest.
    destruct (IH _ F1 Hrest) as (E2 & F2 & R2 & W2 & M2 & S2 & L2).
    repeat split; congruence.
Qed.

Lemma debounce_window_absorbs_keys_witness :
  fetching Demo.remote_waiting = true
  /\ effects
       (after Demo.remoteHost Demo.remote_waiting
          [ InputKeyUp (Demo.keyup "s" false "ns" None) 2000;
            InputKeyUp (Demo.keyup "w" false "nsw" None) 2100 ])
     = effects Demo.remote_waiting.
Proof.
  split; [vm_compute; reflexivity|].
  apply (debounce_window_absorbs_keys Demo.remoteHost
           [ InputKeyUp (Demo.keyup "s" false "ns" None) 2000;
             InputKeyUp (Demo.keyup "w" false "nsw" None) 2100 ]
           Demo.remote_waiting).
  - vm_compute. reflexivity.
  - repeat constructor.
    + eexists _, _, _. repeat split; try reflexivity.
      vm_compute. discriminate.
    + eexists _, _, _. repeat split; try reflexivity.
      vm_compute. discriminate.
Defined.
